(** * react-native-flatlist-slider: the slider component, embedded and verified

    A shallow embedding of [src/index.tsx] (the [FlatListSlider] function
    component) and the properties of its index, geometry and style logic.

    - [Js]: the JavaScript [number] type as the component uses it.
    - [Slider]: props, memoised values, event handlers and the timer
      effect, each next to the source lines it embeds; then the component
      as a state machine over the events React delivers to it. *)

From Stdlib Require Import QArith Qcanon Qround ZArith Lia Lqa.
From stdpp Require Import base numbers list strings pretty.

Local Open Scope Qc_scope.

(** ** JavaScript numbers

    A [number] is a finite value or one of the three non-finite values.
    Finite values are exact rationals: the component only adds one,
    subtracts, multiplies by a constant, divides and rounds, and every
    property below is about the resulting real value, so rounding to 53
    bits is left out.  The two zeros are identified (a zero divisor is
    [+0], what a layout width of zero is).

    Where the exact sum, product or quotient is not a double, the value
    here and the one JavaScript computes differ in the last bit.  That can
    move a quotient onto a tie: [2160 / 392.72727272727275] is the double
    [5.5], which [Math.round] takes to 6, while the exact quotient lies
    just below [5.5].  Statements about the index of an arbitrary
    notification are therefore made for the division as a parameter
    ([onScroll_with] below), and identities that hold for exact values
    only (a product undone by a division, sums of products) are not
    stated of the code. *)
Module Js.

Inductive number : Type :=
| Fin (q : Qc)
| PosInfinity
| NegInfinity
| NaN.

Definition of_Q (q : Q) : number := Fin (Q2Qc q).
Definition of_Z (z : Z) : number := Fin (Qc_of_Z z).
Definition of_nat (n : nat) : number := of_Z (Z.of_nat n).

(** The infinity whose sign is the result of comparing a finite value with
    zero; [NaN] when that value is zero. *)
Definition signed_infinity (c : comparison) : number :=
  match c with
  | Gt => PosInfinity
  | Lt => NegInfinity
  | Eq => NaN
  end.

Definition neg (x : number) : number :=
  match x with
  | Fin q => Fin (- q)
  | PosInfinity => NegInfinity
  | NegInfinity => PosInfinity
  | NaN => NaN
  end.

(** [x + y] *)
Definition add (x y : number) : number :=
  match x, y with
  | NaN, _ | _, NaN => NaN
  | Fin a, Fin b => Fin (a + b)
  | PosInfinity, NegInfinity | NegInfinity, PosInfinity => NaN
  | PosInfinity, _ | _, PosInfinity => PosInfinity
  | NegInfinity, _ | _, NegInfinity => NegInfinity
  end.

(** [x - y] *)
Definition sub (x y : number) : number := add x (neg y).

(** [x * y] *)
Definition mul (x y : number) : number :=
  match x, y with
  | NaN, _ | _, NaN => NaN
  | Fin a, Fin b => Fin (a * b)
  | Fin a, PosInfinity | PosInfinity, Fin a => signed_infinity (a ?= 0)
  | Fin a, NegInfinity | NegInfinity, Fin a => signed_infinity (0 ?= a)
  | PosInfinity, PosInfinity | NegInfinity, NegInfinity => PosInfinity
  | PosInfinity, NegInfinity | NegInfinity, PosInfinity => NegInfinity
  end.

(** [x / y]: a finite value over zero is an infinity of the dividend's sign,
    zero over zero is [NaN]. *)
Definition div (x y : number) : number :=
  match x, y with
  | NaN, _ | _, NaN => NaN
  | Fin a, Fin b =>
      if bool_decide (b = 0) then signed_infinity (a ?= 0) else Fin (a / b)
  | Fin _, (PosInfinity | NegInfinity) => Fin 0
  | PosInfinity, Fin b => if bool_decide (b < 0) then NegInfinity else PosInfinity
  | NegInfinity, Fin b => if bool_decide (b < 0) then PosInfinity else NegInfinity
  | _, _ => NaN
  end.

(** [Math.round(x)]: the nearest integer, a tie going towards [+Infinity];
    the non-finite values are returned as they are. *)
Definition round (x : number) : number :=
  match x with
  | Fin q => of_Z (Qfloor (q + (1 # 2)))
  | _ => x
  end.

(** [x === y] on numbers: [NaN] is equal to nothing, itself included. *)
Definition strict_eq (x y : number) : bool :=
  match x, y with
  | Fin a, Fin b => bool_decide (a = b)
  | PosInfinity, PosInfinity | NegInfinity, NegInfinity => true
  | _, _ => false
  end.

(** [x !== y] *)
Definition strict_ne (x y : number) : bool := negb (strict_eq x y).

(** [Object.is(x, y)] on numbers, which React uses to compare a new state
    with the old one and the dependencies of an effect: as [===], but
    [NaN] is the same value as [NaN]. *)
Definition same_value (x y : number) : bool :=
  match x, y with
  | NaN, NaN => true
  | _, _ => strict_eq x y
  end.

End Js.

(** ** The component *)
Module Slider.

Import Js.

(** *** Props (lines 17-126) *)

Inductive IndicatorShape : Type := circle | square | rectangle | line.

(** [type WidthType = 'window' | number] *)
Inductive WidthType : Type :=
| window
| pixels (n : number).

(** React Native's [ImageURISource], with the fields that hold a string or
    a number. *)
Record ImageURISource : Type := {
  uri : option string;
  bundle : option string;
  method : option string;
  cache : option string;
  source_width : option number;
  source_height : option number;
  scale : option number;
}.

(** An entry of [images: Array<string | number | ImageURISource>]; the
    entries of the memoised [images] are values of the same kind, the
    types being erased at run time. *)
Inductive ImageEntry : Type :=
| image_string (s : string)
| image_number (n : number)
| image_source (o : ImageURISource).

(** The keys of [ViewStyle] that the component sets on an indicator. *)
Record ViewStyle : Type := {
  vs_width : option number;
  vs_height : option number;
  borderRadius : option number;
  marginHorizontal : option number;
  backgroundColor : option string;
}.

Definition empty_style : ViewStyle :=
  {| vs_width := None; vs_height := None; borderRadius := None;
     marginHorizontal := None; backgroundColor := None |}.

Record ImageStyle : Type := {
  is_width : number;
  is_height : number;
  is_resizeMode : string;
}.

(** [FlatListSliderProps] after the defaults are merged in (the [p] of line
    129).  [style] and [onPressSlide] are handed to React Native as they
    are and take no part in what follows. *)
Record FlatListSliderProps : Type := {
  width : WidthType;
  preAppliedSpacing : number;
  images : list ImageEntry;
  aspectRatio : number;
  resizeMode : string;
  duration : number;
  animated : bool;
  showIndicator : bool;
  indicatorSize : number;
  indicatorColor : string;
  indicatorActiveColor : string;
  indicatorShape : IndicatorShape;
  pressable : bool;
}.

Definition defaultProps : FlatListSliderProps :=
  {| width := window;
     preAppliedSpacing := of_Z 0;
     aspectRatio := of_Q (178 # 100);
     resizeMode := "contain";
     images := [];
     duration := of_Z 3000;
     animated := true;
     showIndicator := true;
     indicatorSize := of_Z 15;
     indicatorColor := "#111";
     indicatorActiveColor := "#fff";
     indicatorShape := circle;
     pressable := false |}.

(** *** Memoised values (lines 135-191) *)

(** Lines 135-138: [p.width === 'window' ? windowWidth - p.preAppliedSpacing : p.width] *)
Definition slider_width (p : FlatListSliderProps) (windowWidth : number) : number :=
  match width p with
  | window => sub windowWidth (preAppliedSpacing p)
  | pixels n => n
  end.

Record SliderStyles : Type := {
  slide : ImageStyle;
  badge : ViewStyle;
  active : ViewStyle;
}.

(** Lines 140-166.  [styles.indicator] is a constant positioning style and
    is left out. *)
Definition styles (p : FlatListSliderProps) (w : number) : SliderStyles :=
  {| slide :=
       {| is_width := w;
          is_height := div w (aspectRatio p);
          is_resizeMode := resizeMode p |};
     badge :=
       {| vs_width := None;
          vs_height := Some (indicatorSize p);
          borderRadius := None;
          marginHorizontal := Some (of_Z 3);
          backgroundColor := Some (indicatorColor p) |};
     active :=
       {| vs_width := None; vs_height := None; borderRadius := None;
          marginHorizontal := None;
          backgroundColor := Some (indicatorActiveColor p) |} |}.

(** Lines 168-186. *)
Definition indicatorShapes (p : FlatListSliderProps) (shape : IndicatorShape) : ViewStyle :=
  match shape with
  | circle =>
      {| vs_width := Some (indicatorSize p);
         vs_height := None;
         borderRadius := Some (div (indicatorSize p) (of_Z 2));
         marginHorizontal := None; backgroundColor := None |}
  | square =>
      {| vs_width := Some (indicatorSize p);
         vs_height := None; borderRadius := None;
         marginHorizontal := None; backgroundColor := None |}
  | rectangle =>
      {| vs_width := Some (mul (indicatorSize p) (of_Q (15 # 10)));
         vs_height := None; borderRadius := None;
         marginHorizontal := None; backgroundColor := None |}
  | line =>
      {| vs_width := Some (mul (indicatorSize p) (of_Q (15 # 10)));
         vs_height := Some (mul (indicatorSize p) (of_Q (5 # 10)));
         borderRadius := None;
         marginHorizontal := None; backgroundColor := None |}
  end.

(** Line 189: [typeof image === 'string' ? { uri: image } : image] *)
Definition to_source (image : ImageEntry) : ImageEntry :=
  match image with
  | image_string s =>
      image_source
        {| uri := Some s; bundle := None; method := None; cache := None;
           source_width := None; source_height := None; scale := None |}
  | _ => image
  end.

(** Lines 188-191: [p.images.map(...)] *)
Definition sources (p : FlatListSliderProps) : list ImageEntry :=
  to_source <$> images p.

(** *** Indicator styles (lines 270-276)

    React Native flattens a style array from left to right: a key set by a
    later style replaces the same key of an earlier one. *)
Definition merge_style (base over : ViewStyle) : ViewStyle :=
  {| vs_width := from_option Some (vs_width base) (vs_width over);
     vs_height := from_option Some (vs_height base) (vs_height over);
     borderRadius := from_option Some (borderRadius base) (borderRadius over);
     marginHorizontal := from_option Some (marginHorizontal base) (marginHorizontal over);
     backgroundColor := from_option Some (backgroundColor base) (backgroundColor over) |}.

Definition flatten (l : list ViewStyle) : ViewStyle :=
  foldl merge_style empty_style l.

(** Lines 271-275: the style array of the indicator at position [i]. *)
Definition indicator_style (p : FlatListSliderProps) (w current : number) (i : nat)
  : list ViewStyle :=
  if strict_eq (of_nat i) current
  then [badge (styles p w); indicatorShapes p (indicatorShape p); active (styles p w)]
  else [badge (styles p w); indicatorShapes p (indicatorShape p)].

(** The corner radius a view is drawn with: React Native's default for a
    style without [borderRadius] is [0]. *)
Definition corner_radius (st : ViewStyle) : number :=
  default (of_Z 0) (borderRadius st).

(** *** Event handlers and the auto-advance effect *)

(** The argument of [scrollToOffset]. *)
Record ScrollToOffsetParams : Type := {
  so_animated : bool;
  so_offset : number;
}.

(** The part of [e.nativeEvent] that [onScroll] reads. *)
Record ScrollEvent : Type := {
  contentOffset_x : number;
  layoutMeasurement_width : number;
}.

(** Lines 242-249.  The result is the argument of the [setCurrent] call, or
    [None] when the handler does not call it. *)
Definition onScroll (current : number) (e : ScrollEvent) : option number :=
  let index := round (div (contentOffset_x e) (layoutMeasurement_width e)) in
  if strict_ne current index then Some index else None.

(** A pending [setTimeout]: the delay and the values its callback closed
    over when the effect ran ([images.length], [current] and
    [styles.slide.width]). *)
Record Timeout : Type := {
  delay : number;
  captured_length : nat;
  captured_current : number;
  captured_width : number;
}.

(** Lines 196-210, the callback.  [sliderRef] tells whether
    [sliderRef.current] is set when the callback runs; the result is the
    [scrollToOffset] call it makes, if any. *)
Definition timeout_callback (t : Timeout) (sliderRef : bool)
  : option ScrollToOffsetParams :=
  if negb sliderRef then None
  else if strict_eq (sub (of_nat (captured_length t)) (of_Z 1)) (captured_current t)
  then Some {| so_animated := true; so_offset := of_Z 0 |}
  else Some {| so_animated := true;
               so_offset := mul (captured_width t) (add (captured_current t) (of_Z 1)) |}.

(** Lines 195-210: what the effect does when it runs, for the props [p],
    the memoised width [w] and the state [current]. *)
Definition auto_advance_effect (p : FlatListSliderProps) (w current : number) : Timeout :=
  {| delay := duration p;
     captured_length := length (sources p);
     captured_current := current;
     captured_width := is_width (slide (styles p w)) |}.

(** Line 214, the dependency array. *)
Record Deps : Type := {
  dep_current : number;
  dep_animated : bool;
  dep_duration : number;
  dep_length : nat;
  dep_width : number;
}.

Definition deps_of (p : FlatListSliderProps) (w current : number) : Deps :=
  {| dep_current := current;
     dep_animated := animated p;
     dep_duration := duration p;
     dep_length := length (sources p);
     dep_width := is_width (slide (styles p w)) |}.

(** React re-runs an effect when some dependency is not [Object.is] the
    one of the previous run. *)
Definition deps_same (a b : Deps) : bool :=
  same_value (dep_current a) (dep_current b)
  && Bool.eqb (dep_animated a) (dep_animated b)
  && same_value (dep_duration a) (dep_duration b)
  && Nat.eqb (dep_length a) (dep_length b)
  && same_value (dep_width a) (dep_width b).

(** Lines 261-267, the [onPress] of the indicator at position [i]. *)
Definition indicator_onPress (w : number) (i : nat) (sliderRef : bool)
  : option ScrollToOffsetParams :=
  if sliderRef
  then Some {| so_animated := true; so_offset := mul w (of_nat i) |}
  else None.

(** Lines 257-279: [p.showIndicator && p.images.map((_e, i) => ...)], the
    press handlers of the rendered indicators, in order. *)
Definition indicators (p : FlatListSliderProps) (w : number)
  : list (bool -> option ScrollToOffsetParams) :=
  if showIndicator p
  then imap (fun i _ => indicator_onPress w i) (images p)
  else [].

(** *** The mounted component as a state machine *)

Record State : Type := {
  props : FlatListSliderProps;
  windowWidth : number;
  current : number;
  (** whether [sliderRef.current] is the mounted list *)
  sliderRef : bool;
  (** the timeout of the last effect run, until it fires or is cleared *)
  timer : option Timeout;
  (** the dependencies of the last effect run *)
  last_deps : Deps;
  (** the [scrollToOffset] calls received by the list, oldest first *)
  commands : list ScrollToOffsetParams;
}.

Definition state_width (s : State) : number :=
  slider_width (props s) (windowWidth s).

(** The cleanup of the previous run ([clearTimeout(id)]) followed by the
    effect: one timeout is pending afterwards. *)
Definition run_effect (s : State) : State :=
  {| props := props s; windowWidth := windowWidth s; current := current s;
     sliderRef := sliderRef s;
     timer := Some (auto_advance_effect (props s) (state_width s) (current s));
     last_deps := deps_of (props s) (state_width s) (current s);
     commands := commands s |}.

(** After a render React commits: the effect runs again only when its
    dependencies changed. *)
Definition commit (s : State) : State :=
  if deps_same (last_deps s) (deps_of (props s) (state_width s) (current s))
  then s
  else run_effect s.

(** Line 133 and the first render: [useState(0)], the list is mounted and
    the effect runs. *)
Definition mount (p : FlatListSliderProps) (ww : number) : State :=
  run_effect
    {| props := p; windowWidth := ww; current := of_Z 0; sliderRef := true;
       timer := None; last_deps := deps_of p (slider_width p ww) (of_Z 0);
       commands := [] |}.

Definition set_current (s : State) (index : number) : State :=
  {| props := props s; windowWidth := windowWidth s; current := index;
     sliderRef := sliderRef s; timer := timer s; last_deps := last_deps s;
     commands := commands s |}.

Definition set_props (s : State) (p : FlatListSliderProps) (ww : number) : State :=
  {| props := p; windowWidth := ww; current := current s;
     sliderRef := sliderRef s; timer := timer s; last_deps := last_deps s;
     commands := commands s |}.

(** The list receives the [scrollToOffset] call [c], if there is one. *)
Definition emit (s : State) (c : option ScrollToOffsetParams) : State :=
  {| props := props s; windowWidth := windowWidth s; current := current s;
     sliderRef := sliderRef s; timer := timer s; last_deps := last_deps s;
     commands := commands s ++ option_list c |}.

Definition clear_timer (s : State) : State :=
  {| props := props s; windowWidth := windowWidth s; current := current s;
     sliderRef := sliderRef s; timer := None; last_deps := last_deps s;
     commands := commands s |}.

Definition detach (s : State) : State :=
  {| props := props s; windowWidth := windowWidth s; current := current s;
     sliderRef := false; timer := timer s; last_deps := last_deps s;
     commands := commands s |}.

Inductive Event : Type :=
| scroll (e : ScrollEvent)          (* the list reports a scroll position *)
| timeout_fires                     (* the pending timeout elapses *)
| press_indicator (i : nat)         (* the indicator at position [i] is pressed *)
| render (p : FlatListSliderProps) (ww : number)  (* new props or window width *)
| unmount.

(** One event.  An unmounted component receives none: its timeout was
    cleared by the cleanup of line 212 and its views are gone.  The
    component has re-rendered since the previous event, so the handlers
    see the present state; [scroll_batch] below covers the notifications
    that the handlers of one and the same render receive. *)
Definition step (s : State) (ev : Event) : State :=
  if negb (sliderRef s) then s
  else
    match ev with
    | scroll e =>
        match onScroll (current s) e with
        | Some index => commit (set_current s index)
        | None => s
        end
    | timeout_fires =>
        match timer s with
        | Some t => emit (clear_timer s) (timeout_callback t (sliderRef s))
        | None => s
        end
    | press_indicator i =>
        match indicators (props s) (state_width s) !! i with
        | Some onPress => emit s (onPress (sliderRef s))
        | None => s
        end
    | render p ww => commit (set_props s p ww)
    | unmount => detach (clear_timer s)
    end.

Definition run (s : State) (evs : list Event) : State := foldl step s evs.

End Slider.

Import Js Slider.

(** ** Sample configurations *)

Definition remote (name : string) : ImageEntry := image_string name.

(** Props with one remote slide per name, a fixed slide width of 300 and
    the given [animated] flag; everything else as in [defaultProps]. *)
Definition sample_props (names : list string) (anim : bool) : FlatListSliderProps :=
  {| width := pixels (of_Z 300);
     preAppliedSpacing := preAppliedSpacing defaultProps;
     images := remote <$> names;
     aspectRatio := aspectRatio defaultProps;
     resizeMode := resizeMode defaultProps;
     duration := duration defaultProps;
     animated := anim;
     showIndicator := showIndicator defaultProps;
     indicatorSize := indicatorSize defaultProps;
     indicatorColor := indicatorColor defaultProps;
     indicatorActiveColor := indicatorActiveColor defaultProps;
     indicatorShape := indicatorShape defaultProps;
     pressable := pressable defaultProps |}.

Definition no_slide : FlatListSliderProps := sample_props [] true.
Definition one_slide : FlatListSliderProps := sample_props ["a"] true.
Definition two_slides : FlatListSliderProps := sample_props ["a"; "b"] true.
Definition three_slides : FlatListSliderProps := sample_props ["a"; "b"; "c"] true.

(** Two slides and [animated: false]. *)
Definition two_slides_instant : FlatListSliderProps := sample_props ["a"; "b"] false.

(** The configuration of the geometry example: window width 400 less a
    spacing of 20, aspect ratio 2. *)
Definition geometry_props : FlatListSliderProps :=
  {| width := window;
     preAppliedSpacing := of_Z 20;
     images := [];
     aspectRatio := of_Z 2;
     resizeMode := resizeMode defaultProps;
     duration := duration defaultProps;
     animated := animated defaultProps;
     showIndicator := showIndicator defaultProps;
     indicatorSize := of_Z 10;
     indicatorColor := indicatorColor defaultProps;
     indicatorActiveColor := indicatorActiveColor defaultProps;
     indicatorShape := indicatorShape defaultProps;
     pressable := pressable defaultProps |}.

(** The style an inactive indicator of shape [shape] is drawn with. *)
Definition indicator_box (p : FlatListSliderProps) (w : number) (shape : IndicatorShape)
  : ViewStyle :=
  flatten [badge (styles p w); indicatorShapes p shape].

(** ** Predicates of the index properties *)

(** [c] is the index of one of [n] slides (of the only position [0] when
    there is none). *)
Definition index_in_range (n : nat) (c : number) : Prop :=
  exists k : Z, c = of_Z k /\ (0 <= k < Z.max (Z.of_nat n) 1)%Z.

(** A scroll position that a list of [n] slides, each as wide as the
    viewport, can report: a positive width [w] and an offset between [0]
    and the offset [(n - 1) * w] of the last slide. *)
Definition reportable (n : nat) (e : ScrollEvent) : Prop :=
  exists x w : Qc,
    contentOffset_x e = Fin x /\ layoutMeasurement_width e = Fin w /\
    0 < w /\ 0 <= x /\ x <= Qc_of_Z (Z.max (Z.of_nat n - 1) 0) * w.

(** The events of a component that keeps its [n] slides and whose list
    reports positions within its content. *)
Definition event_in_range (n : nat) (ev : Event) : Prop :=
  match ev with
  | scroll e => reportable n e
  | render p _ => length (images p) = n
  | _ => True
  end.

(** The state [current] after the handler ran on [e]. *)
Definition current_after (cur : number) (e : ScrollEvent) : number :=
  default cur (onScroll cur e).

(** The pending timeout is never stale: it is the one the effect arms for
    the present props, width and index. *)
Definition timer_fresh (s : State) : Prop :=
  last_deps s = deps_of (props s) (state_width s) (current s) /\
  forall t, timer s = Some t ->
            t = auto_advance_effect (props s) (state_width s) (current s).

(** ** The list's callbacks and the rendered indicators *)

(** Line 233: [(_i, e) => e.toString()], the key of the item at position
    [e]: its decimal numeral. *)
Definition keyExtractor (_i : ImageEntry) (e : nat) : string := pretty e.

(** The keys of the rendered items: the list calls [keyExtractor] with
    each entry of [data={images}] and its position. *)
Definition item_keys (p : FlatListSliderProps) : list string :=
  imap (fun e item => keyExtractor item e) (sources p).

Record ItemLayout : Type := {
  il_index : nat;
  il_length : number;
  il_offset : number;
}.

(** Lines 251-255: [getItemLayout], for the styles [st] of the render. *)
Definition getItemLayout (st : SliderStyles) (index : nat) : ItemLayout :=
  {| il_index := index;
     il_length := is_width (slide st);
     il_offset := mul (is_width (slide st)) (of_nat index) |}.

(** Lines 257-279: the flattened styles of the rendered indicators, in
    order; none when [showIndicator] is off. *)
Definition indicator_views (p : FlatListSliderProps) (w current : number)
  : list ViewStyle :=
  if showIndicator p
  then imap (fun i _ => flatten (indicator_style p w current i)) (images p)
  else [].

(** The list carries out the last [scrollToOffset] call it received and
    reports the offset it reached, its viewport being [w] wide. *)
Definition settle (w : number) (s : State) : State :=
  match last (commands s) with
  | Some c =>
      step s (scroll {| contentOffset_x := so_offset c; layoutMeasurement_width := w |})
  | None => s
  end.

(** One period of the slide show: the pending timeout elapses and the list
    settles where it was sent. *)
Definition advance (w : number) (s : State) : State :=
  settle w (step s timeout_fires).

(** The index computed by [onScroll] from a notification. *)
Definition scroll_index (e : ScrollEvent) : number :=
  round (div (contentOffset_x e) (layoutMeasurement_width e)).

(** The mounted component of props [p] in a window [ww] wide shows slide
    [k] and counts down to the next one. *)
Definition showing (p : FlatListSliderProps) (ww : number) (k : Z) (s : State) : Prop :=
  props s = p /\ windowWidth s = ww /\ sliderRef s = true /\ current s = of_Z k /\
  timer s = Some (auto_advance_effect p (slider_width p ww) (of_Z k)) /\
  last_deps s = deps_of p (slider_width p ww) (of_Z k).

(** ** The handler with the division left open, and within one render *)

(** Lines 242-249 with [quot] for the division of line 244: whatever the
    platform's [/] returns for the offset and the width. *)
Definition onScroll_with (quot : number -> number -> number)
           (current : number) (e : ScrollEvent) : option number :=
  let index := round (quot (contentOffset_x e) (layoutMeasurement_width e)) in
  if strict_ne current index then Some index else None.

(** The notifications [es] handled, in order, by the [onScroll] of one
    render.  Each handler compares with the [current] that render saw
    (the closure of lines 133 and 246), and each [setCurrent] call
    replaces the pending state; the result is the state of the next
    render. *)
Definition scroll_batch (current : number) (es : list ScrollEvent) : number :=
  foldl (fun st e => default st (onScroll current e)) current es.

(** [x <= y] on numbers: [NaN] compares with nothing. *)
Definition number_le (x y : number) : Prop :=
  match x, y with
  | NaN, _ | _, NaN => False
  | Fin a, Fin b => a <= b
  | NegInfinity, _ | _, PosInfinity => True
  | _, _ => False
  end.

(** ** Facts about numbers *)

(** Closes an equation between closed numbers, or structures holding
    them, by evaluation. *)
Ltac js_eval :=
  vm_compute;
  repeat match goal with
         | |- @eq Qc _ _ => apply Qc_is_canon; reflexivity
         | |- _ => reflexivity
         | |- _ => progress f_equal
         end.

Lemma strict_eq_of_Z (a b : Z) : strict_eq (of_Z a) (of_Z b) = bool_decide (a = b).
Proof. unfold strict_eq, of_Z. apply bool_decide_ext. apply Z2Qc_inj_iff. Qed.

Lemma sub_of_Z (a b : Z) : sub (of_Z a) (of_Z b) = of_Z (a - b).
Proof. unfold sub, of_Z; simpl. f_equal. symmetry. apply Z2Qc_inj_sub. Qed.

Lemma add_of_Z (a b : Z) : add (of_Z a) (of_Z b) = of_Z (a + b).
Proof. unfold of_Z; simpl. f_equal. symmetry. apply Z2Qc_inj_add. Qed.

Lemma strict_eq_true (x y : number) : strict_eq x y = true -> x = y.
Proof.
  destruct x, y; simpl; try discriminate; try reflexivity.
  intros H. apply bool_decide_eq_true in H. congruence.
Qed.

Lemma sources_length (p : FlatListSliderProps) : length (sources p) = length (images p).
Proof. unfold sources. apply length_fmap. Qed.

(** Moves a goal or hypotheses about canonical rationals to [Q]. *)
Ltac to_Q :=
  unfold Qcle, Qclt in *;
  cbn [this Qcplus Qcminus Qcopp Qcmult Q2Qc Qc_of_Z] in *;
  rewrite ?Qred_correct in *.

Lemma floor_half_bounds (q : Qc) :
  let k := Qfloor (q + (1 # 2)) in
  Qc_of_Z k - Q2Qc (1 # 2) <= q /\ q < Qc_of_Z k + Q2Qc (1 # 2).
Proof.
  intros k.
  pose proof (Qfloor_le (q + (1 # 2))) as Hlo.
  pose proof (Qlt_floor (q + (1 # 2))) as Hhi.
  fold k in Hlo, Hhi. clearbody k.
  rewrite inject_Z_plus in Hhi. change (inject_Z 1) with 1%Q in Hhi.
  to_Q. split; lra.
Qed.

Lemma floor_half_unique (q : Qc) (k : Z) :
  Qc_of_Z k - Q2Qc (1 # 2) <= q -> q < Qc_of_Z k + Q2Qc (1 # 2) ->
  Qfloor (q + (1 # 2)) = k.
Proof.
  pose proof (Qfloor_le (q + (1 # 2))) as H1.
  pose proof (Qlt_floor (q + (1 # 2))) as H2.
  set (f := Qfloor _) in *. clearbody f.
  rewrite inject_Z_plus in H2. change (inject_Z 1) with 1%Q in H2.
  to_Q. intros Hlo Hhi.
  assert (inject_Z f < inject_Z (k + 1))%Q as A
    by (rewrite inject_Z_plus; change (inject_Z 1) with 1%Q; lra).
  assert (inject_Z k < inject_Z (f + 1))%Q as B
    by (rewrite inject_Z_plus; change (inject_Z 1) with 1%Q; lra).
  rewrite <- Zlt_Qlt in A, B. lia.
Qed.

Lemma floor_half_between (q : Qc) (m : Z) :
  0 <= q -> q <= Qc_of_Z m -> (0 <= Qfloor (q + (1 # 2)) <= m)%Z.
Proof.
  intros Hlo Hhi.
  pose proof (floor_half_bounds q) as [B1 B2].
  set (k := Qfloor _) in *. clearbody k.
  to_Q.
  assert (inject_Z (-1) < inject_Z k)%Q as A
    by (change (inject_Z (-1)) with (-1 # 1)%Q; lra).
  assert (inject_Z k < inject_Z (m + 1))%Q as B
    by (rewrite inject_Z_plus; change (inject_Z 1) with 1%Q; lra).
  rewrite <- Zlt_Qlt in A, B. lia.
Qed.

(** A quotient between [0] and an integer [m] rounds to an integer between
    [0] and [m]. *)
Lemma floor_half_range (x w : Qc) (m : Z) :
  0 < w -> 0 <= x -> x <= Qc_of_Z m * w ->
  (0 <= Qfloor ((x / w)%Qc + (1 # 2)) <= m)%Z.
Proof.
  intros Hw Hx Hm. apply floor_half_between.
  - apply Qcmult_nonneg_nonneg; [exact Hx|]. apply Qclt_le_weak, Qcinv_pos, Hw.
  - apply (Qcmult_le_mono_pos_r _ _ w Hw).
    unfold Qcdiv. rewrite <- Qcmult_assoc, Qcmult_inv_l, Qcmult_1_r; [exact Hm|].
    intros ->. exact (Qclt_not_eq _ _ Hw eq_refl).
Qed.

Lemma div_Fin (a b : Qc) : b <> 0 -> div (Fin a) (Fin b) = Fin (a / b).
Proof. intros Hb. simpl. rewrite bool_decide_eq_false_2; [reflexivity | exact Hb]. Qed.

Lemma div_Fin_zero (a : Qc) : div (Fin a) (of_Z 0) = signed_infinity (a ?= 0).
Proof. reflexivity. Qed.

(** ** Geometry and styles *)

(** C8: the slide width is the window width less [preAppliedSpacing] when
    [width] is ['window'] and the given number otherwise; the slide height
    is the slide width divided by [aspectRatio].  For finite values these
    are the rational difference and quotient; a window of 400 with spacing
    20 and aspect ratio 2 gives 380 by 190. *)
Theorem slide_geometry (p : FlatListSliderProps) (ww : number) :
  let w := slider_width p ww in
  (width p = window -> w = sub ww (preAppliedSpacing p)) /\
  (forall n, width p = pixels n -> w = n) /\
  is_width (slide (styles p w)) = w /\
  is_height (slide (styles p w)) = div w (aspectRatio p) /\
  (forall a b r : Qc,
      width p = window -> ww = Fin a -> preAppliedSpacing p = Fin b ->
      aspectRatio p = Fin r -> r <> 0 ->
      w = Fin (a - b) /\ is_height (slide (styles p w)) = Fin ((a - b) / r)) /\
  slider_width geometry_props (of_Z 400) = of_Z 380 /\
  is_height (slide (styles geometry_props (of_Z 380))) = of_Z 190.
Proof.
  cbv zeta. unfold slider_width. split; [|split; [|split; [|split; [|split; [|split]]]]].
  - intros ->. reflexivity.
  - intros n ->. reflexivity.
  - reflexivity.
  - reflexivity.
  - intros a b r -> -> Hb Hr Hnz. rewrite Hb. split; [reflexivity|].
    simpl. rewrite Hr. apply div_Fin, Hnz.
  - js_eval.
  - js_eval.
Qed.

Lemma slide_geometry_witness :
  (slider_width geometry_props (of_Z 400) = Fin (Qc_of_Z 400 - Qc_of_Z 20) /\
   is_height (slide (styles geometry_props (slider_width geometry_props (of_Z 400))))
   = Fin ((Qc_of_Z 400 - Qc_of_Z 20) / Qc_of_Z 2)) /\
  slider_width three_slides (of_Z 400) = of_Z 300.
Proof.
  split.
  - destruct (slide_geometry geometry_props (of_Z 400)) as (_ & _ & _ & _ & H & _).
    apply (H (Qc_of_Z 400) (Qc_of_Z 20) (Qc_of_Z 2)); try reflexivity.
    intros E. apply (f_equal this) in E. discriminate E.
  - destruct (slide_geometry three_slides (of_Z 400)) as (_ & H & _).
    apply H. reflexivity.
Defined.

(** C9: from [indicatorSize] [s] the shapes give: circle, width [s] and
    radius [s / 2]; square, width [s] and no radius (drawn as [0]);
    rectangle, width [s * 1.5] and no radius; line, width [s * 1.5], height
    [s * 0.5] and no radius.  The height is the badge's [s] for every shape
    but line.  For [s = 10]: circle 10 and 5, rectangle 15, line 15 by 5. *)
Theorem indicator_shape_table (p : FlatListSliderProps) (w : number) :
  let s := indicatorSize p in
  let box := indicator_box p w in
  (vs_width (box circle) = Some s /\ vs_height (box circle) = Some s /\
   corner_radius (box circle) = div s (of_Z 2)) /\
  (vs_width (box square) = Some s /\ vs_height (box square) = Some s /\
   borderRadius (box square) = None /\ corner_radius (box square) = of_Z 0) /\
  (vs_width (box rectangle) = Some (mul s (of_Q (15 # 10))) /\
   vs_height (box rectangle) = Some s /\
   borderRadius (box rectangle) = None /\ corner_radius (box rectangle) = of_Z 0) /\
  (vs_width (box line) = Some (mul s (of_Q (15 # 10))) /\
   vs_height (box line) = Some (mul s (of_Q (5 # 10))) /\
   borderRadius (box line) = None /\ corner_radius (box line) = of_Z 0) /\
  (let ten := indicator_box geometry_props w in
   vs_width (ten circle) = Some (of_Z 10) /\ corner_radius (ten circle) = of_Z 5 /\
   vs_width (ten rectangle) = Some (of_Z 15) /\ corner_radius (ten rectangle) = of_Z 0 /\
   vs_width (ten line) = Some (of_Z 15) /\ vs_height (ten line) = Some (of_Z 5)).
Proof.
  cbv zeta. repeat split; try reflexivity; js_eval.
Qed.

(** The active indicator differs from the others in colour only. *)
Lemma active_indicator_same_box (p : FlatListSliderProps) (w current : number) (i : nat) :
  let st := flatten (indicator_style p w current i) in
  let box := indicator_box p w (indicatorShape p) in
  vs_width st = vs_width box /\ vs_height st = vs_height box /\
  borderRadius st = borderRadius box /\
  backgroundColor st =
    Some (if strict_eq (of_nat i) current then indicatorActiveColor p else indicatorColor p).
Proof.
  cbv zeta. unfold indicator_style.
  destruct (strict_eq (of_nat i) current), (indicatorShape p); repeat split.
Qed.

(** C10: the memoised sources have the length and order of [images]; a
    string [s] became the object [{uri: s}], and a number or a source
    object is the entry itself. *)
Theorem sources_normalized (p : FlatListSliderProps) :
  length (sources p) = length (images p) /\
  (forall i : nat, sources p !! i = to_source <$> (images p !! i)) /\
  (forall s : string,
      to_source (image_string s) =
      image_source {| uri := Some s; bundle := None; method := None; cache := None;
                      source_width := None; source_height := None; scale := None |}) /\
  (forall n : number, to_source (image_number n) = image_number n) /\
  (forall o : ImageURISource, to_source (image_source o) = image_source o).
Proof.
  repeat split.
  - apply sources_length.
  - intros i. unfold sources. apply list_lookup_fmap.
Qed.

(** ** The scroll handler *)

Lemma onScroll_index (cur : number) (e : ScrollEvent) :
  onScroll cur e =
  let index := round (div (contentOffset_x e) (layoutMeasurement_width e)) in
  if strict_eq cur index then None else Some index.
Proof. unfold onScroll, strict_ne. destruct (strict_eq _ _); reflexivity. Qed.

(** The handler of the state machine is the one with the exact division. *)
Lemma onScroll_with_div : onScroll = onScroll_with div.
Proof. reflexivity. Qed.






(** ** The auto-advance timer *)

Lemma commit_current (s : State) : current (commit s) = current s.
Proof. unfold commit. destruct (deps_same _ _); reflexivity. Qed.

Lemma commit_props (s : State) : props (commit s) = props s.
Proof. unfold commit. destruct (deps_same _ _); reflexivity. Qed.

Lemma commit_commands (s : State) : commands (commit s) = commands s.
Proof. unfold commit. destruct (deps_same _ _); reflexivity. Qed.

Lemma commit_sliderRef (s : State) : sliderRef (commit s) = sliderRef s.
Proof. unfold commit. destruct (deps_same _ _); reflexivity. Qed.

Lemma timeout_callback_animated (t : Timeout) (r : bool) (c : ScrollToOffsetParams) :
  timeout_callback t r = Some c -> so_animated c = true.
Proof.
  unfold timeout_callback. destruct (negb r); [discriminate|].
  destruct (strict_eq _ _); intros [= <-]; reflexivity.
Qed.

Lemma indicators_lookup (p : FlatListSliderProps) (w : number) (i : nat) :
  indicators p w !! i =
  if showIndicator p && bool_decide (i < length (images p))%nat
  then Some (indicator_onPress w i) else None.
Proof.
  unfold indicators. destruct (showIndicator p); simpl.
  - rewrite list_lookup_imap. case_bool_decide as Hi.
    + destruct (lookup_lt_is_Some_2 (images p) i Hi) as [x ->]. reflexivity.
    + rewrite lookup_ge_None_2 by lia. reflexivity.
  - reflexivity.
Qed.

(** Whatever the props, every [scrollToOffset] call of the component asks
    for an animated scroll. *)
Lemma step_commands_animated (s : State) (ev : Event) :
  Forall (fun c => so_animated c = true) (commands s) ->
  Forall (fun c => so_animated c = true) (commands (step s ev)).
Proof.
  intros H. unfold step. destruct (negb (sliderRef s)); [exact H|].
  destruct ev as [e| |i|p ww|]; simpl.
  - destruct (onScroll _ _); [rewrite commit_commands|]; exact H.
  - destruct (timer s) as [t|]; [|exact H]. simpl.
    apply Forall_app. split; [exact H|].
    destruct (timeout_callback t (sliderRef s)) as [c|] eqn:E; simpl; [|constructor].
    constructor; [|constructor]. exact (timeout_callback_animated _ _ _ E).
  - rewrite indicators_lookup. destruct (_ && _); [|exact H]. simpl.
    apply Forall_app. split; [exact H|].
    unfold indicator_onPress. destruct (sliderRef s); simpl; repeat constructor.
  - rewrite commit_commands. exact H.
  - exact H.
Qed.

Lemma commands_always_animated (p : FlatListSliderProps) (ww : number) (evs : list Event) :
  Forall (fun c => so_animated c = true) (commands (run (mount p ww) evs)).
Proof.
  unfold run. assert (Forall (fun c => so_animated c = true) (commands (mount p ww))) as H
    by constructor.
  revert H. generalize (mount p ww). induction evs as [|ev evs IH]; intros s H; simpl.
  - exact H.
  - apply IH, step_commands_animated, H.
Qed.

(** C1, on the code: with [animated: false] in the props and two slides,
    the [scrollToOffset] call of the first timeout carries [animated: true];
    the literal of lines 202 and 207 stands where [p.animated] belongs. *)
Theorem timeout_ignores_animated_prop :
  animated two_slides_instant = false /\
  commands (run (mount two_slides_instant (of_Z 400)) [timeout_fires])
  = [ {| so_animated := true; so_offset := of_Z 300 |} ].
Proof. split; [reflexivity | js_eval]. Qed.

(** C2 as stated fails: with a single slide a timeout is pending after the
    mount, and when it elapses the list is told to scroll (to offset 0). *)
Lemma single_slide_timer_armed :
  length (images one_slide) = 1%nat /\
  timer (mount one_slide (of_Z 400))
  = Some {| delay := of_Z 3000; captured_length := 1;
            captured_current := of_Z 0; captured_width := of_Z 300 |} /\
  commands (run (mount one_slide (of_Z 400)) [timeout_fires])
  = [ {| so_animated := true; so_offset := of_Z 0 |} ].
Proof. repeat split. Qed.

(** With no slide at all the timeout is armed as well, and asks for the
    offset of a second slide. *)
Remark empty_list_timeout :
  commands (run (mount no_slide (of_Z 400)) [timeout_fires])
  = [ {| so_animated := true; so_offset := of_Z 300 |} ].
Proof. js_eval. Qed.

(** The call made by the timeout that the effect arms at index [k]. *)
Lemma timeout_callback_effect (p : FlatListSliderProps) (w : number) (k : Z) :
  timeout_callback (auto_advance_effect p w (of_Z k)) true =
  if bool_decide (Z.of_nat (length (images p)) - 1 = k)%Z
  then Some {| so_animated := true; so_offset := of_Z 0 |}
  else Some {| so_animated := true; so_offset := mul w (of_Z (k + 1)) |}.
Proof.
  unfold timeout_callback, auto_advance_effect.
  cbn [captured_length captured_current captured_width negb styles slide is_width].
  rewrite sources_length. unfold of_nat.
  rewrite sub_of_Z, strict_eq_of_Z, add_of_Z. reflexivity.
Qed.

(** C4: with at least two slides and [current] the index [k] of one of
    them, the timeout armed by the effect asks, when it elapses with the
    list mounted, for offset 0 from the last index and for
    [width * (k + 1)] from any other; for a finite width that is the
    offset of slide [(k + 1) mod n]. *)
Theorem timeout_targets_next_index (p : FlatListSliderProps) (w : number) (k : Z) :
  let n := Z.of_nat (length (images p)) in
  (2 <= n)%Z -> (0 <= k < n)%Z ->
  let fired := timeout_callback (auto_advance_effect p w (of_Z k)) true in
  (k = (n - 1)%Z -> fired = Some {| so_animated := true; so_offset := of_Z 0 |}) /\
  (k <> (n - 1)%Z ->
   fired = Some {| so_animated := true; so_offset := mul w (of_Z (k + 1)) |}) /\
  (forall wq : Qc, w = Fin wq ->
     fired = Some {| so_animated := true;
                     so_offset := Fin (wq * Qc_of_Z ((k + 1) mod n)) |}).
Proof.
  intros n Hn Hk fired. subst fired. rewrite timeout_callback_effect. fold n.
  repeat split.
  - intros ->. rewrite bool_decide_eq_true_2 by reflexivity. reflexivity.
  - intros Hne. rewrite bool_decide_eq_false_2 by congruence. reflexivity.
  - intros wq ->. case_bool_decide as Hlast.
    + replace ((k + 1) mod n)%Z with 0%Z.
      * unfold of_Z. rewrite Z2Qc_inj_0, Qcmult_0_r. reflexivity.
      * replace (k + 1)%Z with n by lia. symmetry. apply Z_mod_same_full.
    + rewrite Z.mod_small by lia. reflexivity.
Qed.

Lemma timeout_targets_next_index_witness :
  timeout_callback (auto_advance_effect three_slides (of_Z 300) (of_Z 2)) true
  = Some {| so_animated := true; so_offset := of_Z 0 |} /\
  timeout_callback (auto_advance_effect three_slides (of_Z 300) (of_Z 0)) true
  = Some {| so_animated := true; so_offset := mul (of_Z 300) (of_Z (0 + 1)) |}.
Proof.
  assert (2 <= Z.of_nat (length (images three_slides)))%Z as Hn by (simpl; lia).
  split.
  - assert (0 <= 2 < Z.of_nat (length (images three_slides)))%Z as Hk by (simpl; lia).
    destruct (timeout_targets_next_index three_slides (of_Z 300) 2 Hn Hk) as (H & _).
    apply H. reflexivity.
  - assert (0 <= 0 < Z.of_nat (length (images three_slides)))%Z as Hk by (simpl; lia).
    destruct (timeout_targets_next_index three_slides (of_Z 300) 0 Hn Hk) as (_ & H & _).
    apply H. simpl. lia.
Defined.

Lemma same_value_eq (x y : number) : same_value x y = true -> x = y.
Proof.
  destruct x, y; simpl; try discriminate; try reflexivity.
  intros H. apply bool_decide_eq_true in H. congruence.
Qed.

Lemma deps_same_eq (a b : Deps) : deps_same a b = true -> a = b.
Proof.
  destruct a, b. unfold deps_same. simpl. intros H.
  repeat (apply andb_prop in H; destruct H as [H ?]).
  f_equal; try (apply same_value_eq; assumption).
  - apply Bool.eqb_prop; assumption.
  - apply Nat.eqb_eq; assumption.
Qed.

Lemma run_effect_fresh (s : State) : timer_fresh (run_effect s).
Proof. split; [reflexivity|]. intros t [= <-]. reflexivity. Qed.

Lemma commit_fresh (s : State) :
  (forall t, timer s = Some t ->
             t = {| delay := dep_duration (last_deps s);
                    captured_length := dep_length (last_deps s);
                    captured_current := dep_current (last_deps s);
                    captured_width := dep_width (last_deps s) |}) ->
  timer_fresh (commit s).
Proof.
  intros H. unfold commit.
  destruct (deps_same _ _) eqn:E; [|apply run_effect_fresh].
  apply deps_same_eq in E. split; [exact E|].
  intros t Ht. rewrite (H t Ht), E. reflexivity.
Qed.

Lemma step_fresh (s : State) (ev : Event) : timer_fresh s -> timer_fresh (step s ev).
Proof.
  intros Hs. pose proof Hs as [Hd Ht].
  unfold step. destruct (negb (sliderRef s)); [exact Hs|].
  assert (forall s', timer s' = timer s -> last_deps s' = last_deps s ->
                     timer_fresh (commit s')) as Hcommit.
  { intros s' E1 E2. apply commit_fresh. rewrite E1, E2. intros t Hsome.
    rewrite (Ht t Hsome), Hd. reflexivity. }
  destruct ev as [e| |i|p ww|].
  - destruct (onScroll _ _); [apply Hcommit; reflexivity | exact Hs].
  - case_eq (timer s); [intros t _|intros _; exact Hs].
    split; [exact Hd | discriminate].
  - destruct (_ !! _); [split; assumption | exact Hs].
  - apply Hcommit; reflexivity.
  - split; [exact Hd | discriminate].
Qed.

Lemma run_fresh (p : FlatListSliderProps) (ww : number) (evs : list Event) :
  timer_fresh (run (mount p ww) evs).
Proof.
  unfold run. assert (timer_fresh (mount p ww)) as H by apply run_effect_fresh.
  revert H. generalize (mount p ww). induction evs as [|ev evs IH]; intros s H; simpl.
  - exact H.
  - apply IH, step_fresh, H.
Qed.

(** From any state the component reaches, a pending timeout that elapses
    at index [k] sends the call computed from the present props, width and
    index, and leaves [current] as it is. *)
Lemma reachable_timeout_fires (p : FlatListSliderProps) (ww : number)
      (evs : list Event) (k : Z) :
  let s := run (mount p ww) evs in
  sliderRef s = true -> timer s <> None -> current s = of_Z k ->
  commands (step s timeout_fires) =
    commands s
    ++ option_list (timeout_callback (auto_advance_effect (props s) (state_width s) (of_Z k)) true)
  /\ current (step s timeout_fires) = current s.
Proof.
  intros s Href Htimer Hcur.
  destruct (run_fresh p ww evs) as [_ Hfresh]. fold s in Hfresh.
  unfold step. rewrite Href. simpl.
  destruct (timer s) as [t|]; [|congruence].
  rewrite (Hfresh t eq_refl). split; [rewrite Hcur|]; reflexivity.
Qed.

(** C2, amended: the effect arms its timeout for every slide count, with
    [p.duration] as the delay, at the mount and each time it runs.  With a
    single slide and [current] at 0, the index of that slide, a pending
    timeout that elapses asks for a scroll to offset 0, where the list
    already is; this holds in every state the component reaches, the
    first timeout after the mount included. *)
Theorem timer_armed_for_every_slide_count (p : FlatListSliderProps) (ww : number) :
  timer (mount p ww)
  = Some {| delay := duration p; captured_length := length (images p);
            captured_current := of_Z 0; captured_width := slider_width p ww |} /\
  (forall s : State,
      timer (run_effect s)
      = Some (auto_advance_effect (props s) (state_width s) (current s)) /\
      delay (auto_advance_effect (props s) (state_width s) (current s))
      = duration (props s)) /\
  (length (images p) = 1%nat ->
   commands (run (mount p ww) [timeout_fires])
   = [ {| so_animated := true; so_offset := of_Z 0 |} ]) /\
  (forall evs : list Event,
      sliderRef (run (mount p ww) evs) = true ->
      length (images (props (run (mount p ww) evs))) = 1%nat ->
      current (run (mount p ww) evs) = of_Z 0 ->
      timer (run (mount p ww) evs) <> None ->
      commands (step (run (mount p ww) evs) timeout_fires)
      = commands (run (mount p ww) evs)
        ++ [ {| so_animated := true; so_offset := of_Z 0 |} ]).
Proof.
  split; [|split; [|split]].
  - unfold mount, run_effect, auto_advance_effect, state_width. simpl.
    rewrite sources_length. reflexivity.
  - intros s. split; reflexivity.
  - intros Hn. unfold run, mount, run_effect, step; simpl.
    unfold timeout_callback, auto_advance_effect; simpl.
    rewrite sources_length, Hn. reflexivity.
  - intros evs Href Hone Hcur Htimer.
    destruct (run_fresh p ww evs) as [_ Hfresh].
    set (s := run (mount p ww) evs) in *.
    unfold step. rewrite Href. simpl negb. cbv iota.
    destruct (timer s) as [t|]; [|congruence].
    rewrite (Hfresh t eq_refl), Hcur, timeout_callback_effect, Hone.
    reflexivity.
Qed.

Lemma timer_armed_for_every_slide_count_witness :
  (length (images one_slide) = 1%nat /\
   commands (run (mount one_slide (of_Z 400)) [timeout_fires])
   = [ {| so_animated := true; so_offset := of_Z 0 |} ]) /\
  commands (step (run (mount three_slides (of_Z 400)) [render one_slide (of_Z 400)])
                 timeout_fires)
  = [ {| so_animated := true; so_offset := of_Z 0 |} ].
Proof.
  split.
  - split; [reflexivity|].
    destruct (timer_armed_for_every_slide_count one_slide (of_Z 400)) as (_ & _ & H & _).
    apply H. reflexivity.
  - destruct (timer_armed_for_every_slide_count three_slides (of_Z 400)) as (_ & _ & _ & H).
    apply (H [render one_slide (of_Z 400)]); try reflexivity. discriminate.
Defined.

(** ** The range of the index *)

Lemma of_Z_inj (a b : Z) : of_Z a = of_Z b -> a = b.
Proof. intros [= H]. exact H. Qed.

Lemma step_timeout_current (s : State) : current (step s timeout_fires) = current s.
Proof.
  unfold step. destruct (negb (sliderRef s)); [reflexivity|].
  destruct (timer s); reflexivity.
Qed.

Lemma step_press_current (s : State) (i : nat) :
  current (step s (press_indicator i)) = current s.
Proof.
  unfold step. destruct (negb (sliderRef s)); [reflexivity|].
  destruct (_ !! _); reflexivity.
Qed.

Lemma onScroll_reportable (n : nat) (cur index : number) (e : ScrollEvent) :
  reportable n e -> onScroll cur e = Some index -> index_in_range n index.
Proof.
  intros (x & w & Hx & Hw & Hpos & Hlo & Hhi). rewrite onScroll_index, Hx, Hw.
  rewrite div_Fin by (intros ->; exact (Qclt_not_eq _ _ Hpos eq_refl)).
  cbv zeta. destruct (strict_eq _ _); [discriminate|]. intros [= <-].
  exists (Qfloor ((x / w)%Qc + (1 # 2))). split; [reflexivity|].
  pose proof (floor_half_range x w _ Hpos Hlo Hhi). lia.
Qed.

Lemma step_in_range (n : nat) (s : State) (ev : Event) :
  event_in_range n ev ->
  length (images (props s)) = n /\ index_in_range n (current s) ->
  length (images (props (step s ev))) = n /\ index_in_range n (current (step s ev)).
Proof.
  intros Hev [Hn Hc]. destruct ev as [e| |i|p ww|].
  - unfold step. destruct (negb (sliderRef s)); [split; assumption|].
    destruct (onScroll (current s) e) as [index|] eqn:E; [|split; assumption].
    rewrite commit_props, commit_current. split; [exact Hn|].
    exact (onScroll_reportable n _ _ e Hev E).
  - rewrite step_timeout_current. split; [|exact Hc].
    unfold step. destruct (negb (sliderRef s)); [exact Hn|].
    destruct (timer s); exact Hn.
  - rewrite step_press_current. split; [|exact Hc].
    unfold step. destruct (negb (sliderRef s)); [exact Hn|].
    destruct (_ !! _); exact Hn.
  - unfold step. destruct (negb (sliderRef s)); [split; assumption|].
    rewrite commit_props, commit_current. split; [exact Hev | exact Hc].
  - unfold step. destruct (negb (sliderRef s)); split; assumption.
Qed.

(** C6 as stated fails: with two slides, a notification of offset 900 at
    viewport width 300 leaves [current] at 3. *)
Lemma scroll_beyond_last_slide :
  length (images two_slides) = 2%nat /\
  current (run (mount two_slides (of_Z 400))
               [scroll {| contentOffset_x := of_Z 900; layoutMeasurement_width := of_Z 300 |}])
  = of_Z 3 /\
  ~ index_in_range (length (images two_slides))
      (current (run (mount two_slides (of_Z 400))
                    [scroll {| contentOffset_x := of_Z 900;
                               layoutMeasurement_width := of_Z 300 |}])).
Proof.
  split; [reflexivity|]. split; [reflexivity|].
  intros (k & Hk & Hrange).
  change (of_Z 3 = of_Z k) in Hk. apply of_Z_inj in Hk. subst k.
  simpl in Hrange. lia.
Qed.

(** C6, amended: [current] starts at 0, a timeout that elapses does not
    write it, and it is the index of a slide, [0 <= current < max n 1],
    after every run of events in which the list reports positions within
    its content (a positive viewport width [w] and an offset from 0 to
    [(n - 1) * w]) and the number [n] of slides stays the same. *)
Theorem current_index_in_range (p : FlatListSliderProps) (ww : number) (evs : list Event) :
  Forall (event_in_range (length (images p))) evs ->
  current (mount p ww) = of_Z 0 /\
  (forall s : State, current (step s timeout_fires) = current s) /\
  index_in_range (length (images p)) (current (run (mount p ww) evs)).
Proof.
  intros Hevs. split; [reflexivity|]. split; [exact step_timeout_current|].
  set (n := length (images p)) in *.
  assert (length (images (props (mount p ww))) = n /\
          index_in_range n (current (mount p ww))) as Hinit.
  { split; [reflexivity|]. exists 0%Z. split; [reflexivity | lia]. }
  revert Hinit. unfold run. generalize (mount p ww).
  induction Hevs as [|ev evs Hev _ IH]; intros s Hs; simpl.
  - exact (proj2 Hs).
  - apply IH, step_in_range; assumption.
Qed.

Lemma current_index_in_range_witness :
  index_in_range 3
    (current (run (mount three_slides (of_Z 400))
                  [scroll {| contentOffset_x := of_Z 450;
                             layoutMeasurement_width := of_Z 300 |};
                   timeout_fires])).
Proof.
  refine (proj2 (proj2 (current_index_in_range three_slides (of_Z 400) _ _))).
  repeat constructor.
  exists (Qc_of_Z 450), (Qc_of_Z 300). repeat split; vm_compute; congruence.
Defined.

(** ** Pressing an indicator *)

(** C7 as stated fails: no index is clamped.  With three slides of width
    300 there is no indicator at position 3, and a press there sends
    nothing, where clamping would send offset 600. *)
Lemma no_indicator_beyond_last :
  length (images three_slides) = 3%nat /\
  length (indicators three_slides (slider_width three_slides (of_Z 400))) = 3%nat /\
  commands (step (mount three_slides (of_Z 400)) (press_indicator 3)) = [] /\
  commands (step (mount three_slides (of_Z 400)) (press_indicator 2))
  = [ {| so_animated := true; so_offset := of_Z 600 |} ].
Proof. repeat split. js_eval. Qed.

(** C7, amended: there is one indicator per image, at the positions
    [0 .. n - 1], and none when [showIndicator] is off; pressing the one at
    position [i] sends [scrollToOffset] with offset [width * i], computed
    without clamping; a press anywhere else sends nothing.  For a finite
    width [wq >= 0] the offset lies between 0 and [wq * (n - 1)]. *)
Theorem indicator_press_scrolls_to_slide (s : State) (i : nat) :
  sliderRef s = true ->
  let n := length (images (props s)) in
  length (indicators (props s) (state_width s))
  = (if showIndicator (props s) then n else 0%nat) /\
  (showIndicator (props s) = true -> (i < n)%nat ->
   commands (step s (press_indicator i))
   = commands s ++ [ {| so_animated := true;
                        so_offset := mul (state_width s) (of_nat i) |} ]) /\
  ((n <= i)%nat -> step s (press_indicator i) = s) /\
  (showIndicator (props s) = false -> step s (press_indicator i) = s) /\
  (forall wq : Qc, 0 <= wq -> (i < n)%nat ->
     mul (Fin wq) (of_nat i) = Fin (wq * Qc_of_Z (Z.of_nat i)) /\
     0 <= wq * Qc_of_Z (Z.of_nat i) /\
     wq * Qc_of_Z (Z.of_nat i) <= wq * Qc_of_Z (Z.of_nat n - 1)).
Proof.
  intros Href n. split; [|split; [|split; [|split]]].
  - unfold indicators. destruct (showIndicator (props s)); [|reflexivity].
    apply length_imap.
  - intros Hshow Hi. unfold step. rewrite Href. simpl.
    rewrite indicators_lookup, Hshow, bool_decide_eq_true_2 by exact Hi.
    reflexivity.
  - intros Hi. unfold step. rewrite Href. simpl.
    rewrite indicators_lookup, bool_decide_eq_false_2 by (unfold n in Hi; lia).
    rewrite andb_false_r. reflexivity.
  - intros Hshow. unfold step. rewrite Href. simpl.
    rewrite indicators_lookup, Hshow. reflexivity.
  - intros wq Hwq Hi. split; [reflexivity|]. split.
    + apply Qcmult_nonneg_nonneg; [exact Hwq|].
      rewrite <- Z2Qc_inj_0. apply (proj1 (Z2Qc_inj_le _ _)). lia.
    + apply Qcmult_le_mono_nonneg_l; [exact Hwq|].
      apply (proj1 (Z2Qc_inj_le _ _)). lia.
Qed.

Lemma indicator_press_scrolls_to_slide_witness :
  commands (step (mount three_slides (of_Z 400)) (press_indicator 1))
  = [ {| so_animated := true; so_offset := mul (of_Z 300) (of_nat 1) |} ] /\
  step (mount three_slides (of_Z 400)) (press_indicator 3) = mount three_slides (of_Z 400).
Proof.
  split.
  - destruct (indicator_press_scrolls_to_slide (mount three_slides (of_Z 400)) 1 eq_refl)
      as (_ & H & _).
    apply H; [reflexivity | simpl; lia].
  - destruct (indicator_press_scrolls_to_slide (mount three_slides (of_Z 400)) 3 eq_refl)
      as (_ & _ & H & _).
    apply H. simpl. lia.
Defined.

(** * Further properties of the component *)

(** ** Scroll notifications *)

Lemma strict_eq_refl (x : number) : x <> NaN -> strict_eq x x = true.
Proof.
  destruct x; simpl; try reflexivity; [|congruence].
  intros _. apply bool_decide_eq_true_2. reflexivity.
Qed.

Lemma same_value_refl (x : number) : same_value x x = true.
Proof.
  destruct x; simpl; try reflexivity. apply bool_decide_eq_true_2. reflexivity.
Qed.

Lemma current_after_index (cur : number) (e : ScrollEvent) :
  current_after cur e = scroll_index e.
Proof.
  unfold current_after, scroll_index. rewrite onScroll_index. cbv zeta.
  destruct (strict_eq cur _) eqn:E; simpl; [|reflexivity].
  apply strict_eq_true, E.
Qed.

Lemma step_scroll_current (s : State) (e : ScrollEvent) :
  sliderRef s = true -> current (step s (scroll e)) = scroll_index e.
Proof.
  intros Href. rewrite <- (current_after_index (current s) e).
  unfold step, current_after. rewrite Href. simpl.
  destruct (onScroll (current s) e); [rewrite commit_current|]; reflexivity.
Qed.

Lemma step_sliderRef (s : State) (ev : Event) :
  ev <> unmount -> sliderRef (step s ev) = sliderRef s.
Proof.
  intros Hev. unfold step. destruct (negb (sliderRef s)); [reflexivity|].
  destruct ev as [e| |i|p ww|]; try congruence.
  - destruct (onScroll _ _); [rewrite commit_sliderRef|]; reflexivity.
  - destruct (timer s); reflexivity.
  - destruct (_ !! _); reflexivity.
  - rewrite commit_sliderRef. reflexivity.
Qed.

Lemma scroll_batch_snoc (cur : number) (es : list ScrollEvent) (e : ScrollEvent) :
  scroll_batch cur (es ++ [e])
  = if strict_eq cur (scroll_index e) then scroll_batch cur es else scroll_index e.
Proof.
  unfold scroll_batch. rewrite foldl_app. simpl. rewrite onScroll_index. cbv zeta.
  fold (scroll_index e). destruct (strict_eq cur (scroll_index e)); reflexivity.
Qed.

(** A notification handled by the handler of the latest render leaves
    [current] at the index computed from that notification alone, whatever
    it was before.  Of the notifications that the handlers of one render
    receive, the last one whose index is not the [current] of that render
    decides: one that reports that [current] again is ignored, so after
    offsets 300 and then 0 (width 300) in a render at index 0 the state is
    1. *)
Theorem scroll_handlers_of_one_render (cur : number) (es : list ScrollEvent)
        (e : ScrollEvent) :
  scroll_batch cur [e] = scroll_index e /\
  (forall s : State, sliderRef s = true ->
     current (step s (scroll e)) = scroll_batch (current s) [e]) /\
  (strict_eq cur (scroll_index e) = false ->
   scroll_batch cur (es ++ [e]) = scroll_index e) /\
  (strict_eq cur (scroll_index e) = true ->
   scroll_batch cur (es ++ [e]) = scroll_batch cur es) /\
  scroll_batch (of_Z 0)
    [ {| contentOffset_x := of_Z 300; layoutMeasurement_width := of_Z 300 |};
      {| contentOffset_x := of_Z 0; layoutMeasurement_width := of_Z 300 |} ]
  = of_Z 1.
Proof.
  assert (scroll_batch cur [e] = scroll_index e) as Hone
    by apply (current_after_index cur e).
  split; [exact Hone|]. split; [|split; [|split]].
  - intros s Href. rewrite step_scroll_current by exact Href.
    symmetry. apply (current_after_index (current s) e).
  - intros Hne. rewrite scroll_batch_snoc, Hne. reflexivity.
  - intros Heq. rewrite scroll_batch_snoc, Heq. reflexivity.
  - reflexivity.
Qed.

Lemma scroll_handlers_of_one_render_witness :
  scroll_batch (of_Z 0)
    [ {| contentOffset_x := of_Z 300; layoutMeasurement_width := of_Z 300 |};
      {| contentOffset_x := of_Z 600; layoutMeasurement_width := of_Z 300 |} ]
  = of_Z 2 /\
  scroll_batch (of_Z 0)
    [ {| contentOffset_x := of_Z 300; layoutMeasurement_width := of_Z 300 |};
      {| contentOffset_x := of_Z 0; layoutMeasurement_width := of_Z 300 |} ]
  = scroll_batch (of_Z 0)
      [ {| contentOffset_x := of_Z 300; layoutMeasurement_width := of_Z 300 |} ] /\
  current (step (mount three_slides (of_Z 400))
                (scroll {| contentOffset_x := of_Z 600;
                           layoutMeasurement_width := of_Z 300 |}))
  = of_Z 2.
Proof.
  split; [|split].
  - exact (proj1 (proj2 (proj2
             (scroll_handlers_of_one_render (of_Z 0)
                [ {| contentOffset_x := of_Z 300; layoutMeasurement_width := of_Z 300 |} ]
                {| contentOffset_x := of_Z 600; layoutMeasurement_width := of_Z 300 |})))
             eq_refl).
  - exact (proj1 (proj2 (proj2 (proj2
             (scroll_handlers_of_one_render (of_Z 0)
                [ {| contentOffset_x := of_Z 300; layoutMeasurement_width := of_Z 300 |} ]
                {| contentOffset_x := of_Z 0; layoutMeasurement_width := of_Z 300 |}))))
             eq_refl).
  - exact (proj1 (proj2
             (scroll_handlers_of_one_render (of_Z 0) []
                {| contentOffset_x := of_Z 600; layoutMeasurement_width := of_Z 300 |}))
             (mount three_slides (of_Z 400)) eq_refl).
Defined.

(** A notification that repeats the position just reported changes
    nothing: the handler does not call [setCurrent] again (the computed
    index not being [NaN], which is unequal to itself). *)
Theorem repeated_scroll_is_ignored (s : State) (e : ScrollEvent) :
  scroll_index e <> NaN ->
  onScroll (scroll_index e) e = None /\
  step (step s (scroll e)) (scroll e) = step s (scroll e).
Proof.
  intros Hnan.
  assert (onScroll (scroll_index e) e = None) as Hnone.
  { rewrite onScroll_index. cbv zeta. fold (scroll_index e).
    rewrite strict_eq_refl by exact Hnan. reflexivity. }
  split; [exact Hnone|].
  destruct (sliderRef s) eqn:Href.
  - assert (sliderRef (step s (scroll e)) = true) as Href'
      by (rewrite step_sliderRef by discriminate; exact Href).
    pose proof (step_scroll_current s e Href) as Hcur.
    generalize dependent (step s (scroll e)). intros s1 Href' Hcur.
    unfold step. rewrite Href', Hcur, Hnone. reflexivity.
  - unfold step. rewrite Href. simpl. rewrite Href. reflexivity.
Qed.

Lemma repeated_scroll_is_ignored_witness :
  step (step (mount three_slides (of_Z 400))
             (scroll {| contentOffset_x := of_Z 300; layoutMeasurement_width := of_Z 300 |}))
       (scroll {| contentOffset_x := of_Z 300; layoutMeasurement_width := of_Z 300 |})
  = step (mount three_slides (of_Z 400))
         (scroll {| contentOffset_x := of_Z 300; layoutMeasurement_width := of_Z 300 |}).
Proof.
  refine (proj2 (repeated_scroll_is_ignored (mount three_slides (of_Z 400)) _ _)).
  discriminate.
Defined.

(** ** Offsets, item layout and the index they give back *)

Lemma Qc_pos_nonzero (q : Qc) : 0 < q -> q <> 0.
Proof. intros Hq ->. exact (Qclt_not_eq _ _ Hq eq_refl). Qed.

Lemma round_of_Z (m : Z) : round (of_Z m) = of_Z m.
Proof.
  change (of_Z (Qfloor (Qc_of_Z m + (1 # 2))) = of_Z m). f_equal.
  apply floor_half_unique; to_Q; lra.
Qed.

(** The offset of slide [m] over the slide width rounds back to [m]. *)
Lemma round_div_mul (wq : Qc) (m : Z) :
  wq <> 0 -> round (div (Fin (wq * Qc_of_Z m)) (Fin wq)) = of_Z m.
Proof.
  intros Hw. rewrite div_Fin by exact Hw.
  replace (wq * Qc_of_Z m / wq) with (Qc_of_Z m); [apply round_of_Z|].
  unfold Qcdiv. rewrite (Qcmult_comm wq), <- Qcmult_assoc, Qcmult_inv_r, Qcmult_1_r
    by exact Hw. reflexivity.
Qed.

Lemma round_div_zero (wq : Qc) : wq <> 0 -> round (div (of_Z 0) (Fin wq)) = of_Z 0.
Proof.
  intros Hw. rewrite <- (round_div_mul wq 0 Hw) at 2.
  unfold of_Z. rewrite Z2Qc_inj_0, Qcmult_0_r. reflexivity.
Qed.

Lemma Qc_of_nat_succ (i : nat) : Qc_of_Z (Z.of_nat (S i)) = Qc_of_Z (Z.of_nat i) + 1.
Proof. rewrite Nat2Z.inj_succ, <- Z.add_1_r, Z2Qc_inj_add, Z2Qc_inj_1. reflexivity. Qed.

(** For a finite slide width [wq > 0]: item 0 is laid out at offset 0,
    every item is one slide long, the offsets do not decrease with the
    position, the layout offset of item [i] is the offset its indicator
    scrolls to, and a notification at that offset, in a viewport one slide
    wide, gives back index [i]. *)
Theorem item_layout_round_trip (p : FlatListSliderProps) (w : number) (wq : Qc) (i : nat) :
  w = Fin wq -> 0 < wq ->
  let layout := getItemLayout (styles p w) in
  il_offset (layout 0%nat) = Fin 0 /\
  il_length (layout i) = w /\
  number_le (il_offset (layout i)) (il_offset (layout (S i))) /\
  indicator_onPress w i true
  = Some {| so_animated := true; so_offset := il_offset (layout i) |} /\
  scroll_index {| contentOffset_x := il_offset (layout i); layoutMeasurement_width := w |}
  = of_nat i.
Proof.
  intros -> Hw layout. subst layout. unfold getItemLayout, scroll_index.
  cbn [il_offset il_length styles slide is_width contentOffset_x layoutMeasurement_width].
  split; [|split; [|split; [|split]]].
  - unfold of_nat, of_Z. cbn [mul]. change (Z.of_nat 0) with 0%Z.
    rewrite Z2Qc_inj_0, Qcmult_0_r. reflexivity.
  - reflexivity.
  - unfold of_nat, of_Z. cbn [mul number_le].
    apply Qcmult_le_mono_nonneg_l; [apply Qclt_le_weak, Hw|].
    apply (proj1 (Z2Qc_inj_le _ _)). lia.
  - reflexivity.
  - apply round_div_mul, Qc_pos_nonzero, Hw.
Qed.

Lemma item_layout_round_trip_witness :
  scroll_index
    {| contentOffset_x := il_offset (getItemLayout (styles three_slides (of_Z 300)) 2);
       layoutMeasurement_width := of_Z 300 |}
  = of_nat 2.
Proof.
  assert (0 < Qc_of_Z 300) as Hw by reflexivity.
  exact (proj2 (proj2 (proj2 (proj2
           (item_layout_round_trip three_slides (of_Z 300) (Qc_of_Z 300) 2 eq_refl Hw))))).
Defined.

(** ** Pressing an indicator, then the list settling *)

Lemma step_press_emits (s : State) (i : nat) :
  sliderRef s = true -> showIndicator (props s) = true ->
  (i < length (images (props s)))%nat ->
  step s (press_indicator i)
  = emit s (Some {| so_animated := true;
                    so_offset := mul (state_width s) (of_nat i) |}).
Proof.
  intros Href Hshow Hi. unfold step. rewrite Href. simpl.
  rewrite indicators_lookup, Hshow, bool_decide_eq_true_2 by exact Hi.
  reflexivity.
Qed.

Lemma same_value_strict_eq (x y : number) : same_value x y = false -> strict_eq x y = false.
Proof. destruct x, y; simpl; congruence. Qed.

(** A notification whose index is not the present one re-runs the effect:
    the old timeout is cleared and one for the new index is armed. *)
Lemma step_scroll_rearms (s : State) (e : ScrollEvent) :
  sliderRef s = true -> timer_fresh s ->
  same_value (current s) (scroll_index e) = false ->
  step s (scroll e) = run_effect (set_current s (scroll_index e)).
Proof.
  intros Href [Hdeps _] Hne. unfold step. rewrite Href. simpl.
  rewrite onScroll_index. cbv zeta. fold (scroll_index e).
  rewrite (same_value_strict_eq _ _ Hne).
  unfold commit.
  change (deps_same (last_deps (set_current s (scroll_index e))) _)
    with (deps_same (last_deps s)
            (deps_of (props s) (state_width s) (scroll_index e))).
  rewrite Hdeps. unfold deps_same, deps_of. cbn [dep_current]. rewrite Hne. reflexivity.
Qed.

(** Pressing the indicator at position [i] and the list settling at the
    offset it was sent to (viewport one slide wide, finite width [wq > 0])
    leaves [current] at [i]; if that is a new index, the countdown
    restarts for it. *)
Theorem press_then_settle (p : FlatListSliderProps) (ww : number) (evs : list Event)
        (wq : Qc) (i : nat) :
  let s := run (mount p ww) evs in
  sliderRef s = true -> showIndicator (props s) = true ->
  (i < length (images (props s)))%nat ->
  state_width s = Fin wq -> 0 < wq ->
  let s' := settle (Fin wq) (step s (press_indicator i)) in
  current s' = of_nat i /\
  (same_value (current s) (of_nat i) = false ->
   timer s' = Some (auto_advance_effect (props s) (Fin wq) (of_nat i))).
Proof.
  intros s Href Hshow Hi Hw Hpos s'.
  assert (scroll_index {| contentOffset_x := mul (Fin wq) (of_nat i);
                          layoutMeasurement_width := Fin wq |} = of_nat i) as Hidx
    by (apply round_div_mul, Qc_pos_nonzero, Hpos).
  assert (s' = step (step s (press_indicator i))
                    (scroll {| contentOffset_x := mul (Fin wq) (of_nat i);
                               layoutMeasurement_width := Fin wq |})) as ->.
  { subst s'. unfold settle. rewrite (step_press_emits s i Href Hshow Hi), Hw.
    simpl. rewrite last_snoc. reflexivity. }
  split.
  - rewrite step_scroll_current, Hidx; [reflexivity|].
    rewrite step_sliderRef by discriminate. exact Href.
  - intros Hne. rewrite (step_press_emits s i Href Hshow Hi).
    rewrite step_scroll_rearms.
    + rewrite Hidx. unfold run_effect, state_width. simpl. fold (state_width s).
      rewrite Hw. reflexivity.
    + exact Href.
    + destruct (run_fresh p ww evs) as [Hd Ht]. split; [exact Hd | exact Ht].
    + rewrite Hidx. exact Hne.
Qed.

Lemma press_then_settle_witness :
  current (settle (of_Z 300) (step (run (mount three_slides (of_Z 400)) [])
                                   (press_indicator 2)))
  = of_nat 2.
Proof.
  assert (0 < Qc_of_Z 300) as Hpos by reflexivity.
  assert (2 < length (images (props (run (mount three_slides (of_Z 400)) []))))%nat as Hi
    by (simpl; lia).
  exact (proj1 (press_then_settle three_slides (of_Z 400) [] (Qc_of_Z 300) 2
                  eq_refl eq_refl Hi eq_refl Hpos)).
Defined.

(** ** The slide show *)

(** With at least one slide and [current] the index [k] of a slide, the
    timeout sends the offset of slide [(k + 1) mod n]. *)
Lemma timeout_offset_mod (p : FlatListSliderProps) (wq : Qc) (k : Z) :
  (0 <= k < Z.of_nat (length (images p)))%Z ->
  timeout_callback (auto_advance_effect p (Fin wq) (of_Z k)) true
  = Some {| so_animated := true;
            so_offset := Fin (wq * Qc_of_Z ((k + 1) mod Z.of_nat (length (images p)))) |}.
Proof.
  intros Hk. rewrite timeout_callback_effect. case_bool_decide as Hlast.
  - replace ((k + 1) mod _)%Z with 0%Z.
    + unfold of_Z. rewrite Z2Qc_inj_0, Qcmult_0_r. reflexivity.
    + replace (k + 1)%Z with (Z.of_nat (length (images p))) by lia.
      symmetry. apply Z_mod_same_full.
  - rewrite Z.mod_small by lia. reflexivity.
Qed.

Lemma mount_showing (p : FlatListSliderProps) (ww : number) : showing p ww 0 (mount p ww).
Proof. repeat split. Qed.

(** One period, from slide [k] of at least two: the list is sent to slide
    [(k + 1) mod n], reports it, and the countdown restarts there. *)
Lemma advance_showing (p : FlatListSliderProps) (ww : number) (wq : Qc) (k : Z) (s : State) :
  slider_width p ww = Fin wq -> 0 < wq ->
  (2 <= Z.of_nat (length (images p)))%Z ->
  (0 <= k < Z.of_nat (length (images p)))%Z ->
  showing p ww k s ->
  showing p ww ((k + 1) mod Z.of_nat (length (images p))) (advance (Fin wq) s) /\
  commands (advance (Fin wq) s)
  = commands s
    ++ [ {| so_animated := true;
            so_offset := Fin (wq * Qc_of_Z ((k + 1) mod Z.of_nat (length (images p)))) |} ].
Proof.
  intros Hw Hpos Hn Hk (Hp & Hww & Href & Hcur & Htimer & Hdeps).
  set (n := Z.of_nat (length (images p))) in *.
  set (k' := ((k + 1) mod n)%Z).
  set (c := {| so_animated := true; so_offset := Fin (wq * Qc_of_Z k') |}).
  set (e := {| contentOffset_x := Fin (wq * Qc_of_Z k'); layoutMeasurement_width := Fin wq |}).
  rewrite Hw in Htimer, Hdeps.
  assert (step s timeout_fires = emit (clear_timer s) (Some c)) as Hfire.
  { unfold step. rewrite Href, Htimer. simpl negb. cbv iota.
    rewrite (timeout_offset_mod p wq k Hk). reflexivity. }
  assert (advance (Fin wq) s = step (emit (clear_timer s) (Some c)) (scroll e)) as Hadv.
  { unfold advance, settle. rewrite Hfire. simpl commands. rewrite last_snoc. reflexivity. }
  assert (scroll_index e = of_Z k') as Hidx
    by (apply round_div_mul, Qc_pos_nonzero, Hpos).
  assert (same_value (of_Z k) (of_Z k') = false) as Hne.
  { change (strict_eq (of_Z k) (of_Z k') = false). rewrite strict_eq_of_Z.
    apply bool_decide_eq_false_2. subst k'.
    destruct (decide (k = n - 1)%Z) as [->|Hlast].
    - replace (n - 1 + 1)%Z with n by lia. rewrite Z_mod_same_full. lia.
    - rewrite Z.mod_small by lia. lia. }
  rewrite Hadv, step_scroll_rearms.
  - rewrite Hidx. unfold showing, run_effect, state_width. simpl.
    rewrite Hp, Hww, Hw. repeat split; assumption.
  - exact Href.
  - split; [unfold state_width; simpl; rewrite Hp, Hww, Hw, Hcur; exact Hdeps|].
    simpl. discriminate.
  - simpl current. rewrite Hcur, Hidx. exact Hne.
Qed.

(** The slide show goes round: with at least two slides of a finite width
    [wq > 0], after [j] periods in which the timeout elapses and the list
    settles where it was sent, [current] is [j mod n], the countdown to
    the next slide is running and [j] scroll calls have been made. *)
Theorem auto_advance_cycles (p : FlatListSliderProps) (ww : number) (wq : Qc) (j : nat) :
  slider_width p ww = Fin wq -> 0 < wq -> (2 <= length (images p))%nat ->
  let n := Z.of_nat (length (images p)) in
  let s := Nat.iter j (advance (Fin wq)) (mount p ww) in
  current s = of_Z (Z.of_nat j mod n) /\
  timer s = Some (auto_advance_effect p (Fin wq) (of_Z (Z.of_nat j mod n))) /\
  length (commands s) = j.
Proof.
  intros Hw Hpos Hn n s.
  assert (showing p ww (Z.of_nat j mod n) s /\ length (commands s) = j) as [Hs Hlen].
  { subst s. induction j as [|j [IH IHlen]].
    - split; [|reflexivity]. rewrite Z.mod_0_l by (subst n; lia). apply mount_showing.
    - rewrite Nat.iter_succ.
      destruct (advance_showing p ww wq (Z.of_nat j mod n)
                  (Nat.iter j (advance (Fin wq)) (mount p ww)) Hw Hpos)
        as [Hnext Hcmds];
        [subst n; lia | apply Z.mod_pos_bound; subst n; lia | exact IH |].
      fold n in Hnext, Hcmds. split.
      + rewrite Nat2Z.inj_succ, <- Z.add_1_r, <- Z.add_mod_idemp_l by (subst n; lia).
        exact Hnext.
      + rewrite Hcmds, length_app, IHlen. simpl. lia. }
  destruct Hs as (_ & _ & _ & Hcur & Htimer & _).
  rewrite Hw in Htimer. repeat split; assumption.
Qed.

Lemma auto_advance_cycles_witness :
  current (Nat.iter 4 (advance (of_Z 300)) (mount three_slides (of_Z 400))) = of_Z 1.
Proof.
  assert (0 < Qc_of_Z 300) as Hpos by reflexivity.
  assert (2 <= length (images three_slides))%nat as Hn by (simpl; lia).
  exact (proj1 (auto_advance_cycles three_slides (of_Z 400) (Qc_of_Z 300) 4 eq_refl Hpos Hn)).
Defined.

(** With a single slide of a finite width [wq > 0] the timeout elapses
    once and sends the list to offset 0; the list reports the index it
    already had, the effect does not run again, and no timeout is armed or
    scroll call made in any later period. *)
Theorem single_slide_fires_once (p : FlatListSliderProps) (ww : number) (wq : Qc) (j : nat) :
  length (images p) = 1%nat -> slider_width p ww = Fin wq -> 0 < wq ->
  let s := Nat.iter (S j) (advance (Fin wq)) (mount p ww) in
  commands s = [ {| so_animated := true; so_offset := of_Z 0 |} ] /\
  timer s = None /\ current s = of_Z 0.
Proof.
  intros Hlen Hw Hpos s.
  set (c := {| so_animated := true; so_offset := of_Z 0 |}).
  set (e := {| contentOffset_x := of_Z 0; layoutMeasurement_width := Fin wq |}).
  assert (step (mount p ww) timeout_fires = emit (clear_timer (mount p ww)) (Some c))
    as Hfire.
  { unfold step, mount, run_effect. simpl. unfold state_width. simpl.
    rewrite timeout_callback_effect, Hlen. reflexivity. }
  assert (step (emit (clear_timer (mount p ww)) (Some c)) (scroll e)
          = emit (clear_timer (mount p ww)) (Some c)) as Hquiet.
  { unfold step. simpl. rewrite onScroll_index. cbv zeta. fold (scroll_index e).
    unfold scroll_index, e. simpl contentOffset_x. simpl layoutMeasurement_width.
    rewrite round_div_zero by (apply Qc_pos_nonzero, Hpos).
    rewrite strict_eq_of_Z. reflexivity. }
  assert (s = emit (clear_timer (mount p ww)) (Some c)) as ->.
  { subst s. induction j as [|j IH].
    - simpl. unfold advance, settle. rewrite Hfire. exact Hquiet.
    - rewrite Nat.iter_succ, IH. unfold advance, settle.
      change (step (emit (clear_timer (mount p ww)) (Some c)) timeout_fires)
        with (emit (clear_timer (mount p ww)) (Some c)).
      exact Hquiet. }
  repeat split.
Qed.

Lemma single_slide_fires_once_witness :
  commands (Nat.iter 3 (advance (of_Z 300)) (mount one_slide (of_Z 400)))
  = [ {| so_animated := true; so_offset := of_Z 0 |} ].
Proof.
  assert (0 < Qc_of_Z 300) as Hpos by reflexivity.
  exact (proj1 (single_slide_fires_once one_slide (of_Z 400) (Qc_of_Z 300) 2
                  eq_refl eq_refl Hpos)).
Defined.

(** With an index of a slide and a finite width [wq >= 0], the offset the
    timeout sends lies within the content, between 0 and the offset
    [wq * (n - 1)] of the last slide. *)
Theorem timeout_offset_within_content (p : FlatListSliderProps) (wq : Qc) (cur : number) :
  (1 <= length (images p))%nat -> index_in_range (length (images p)) cur -> 0 <= wq ->
  exists o : Qc,
    timeout_callback (auto_advance_effect p (Fin wq) cur) true
    = Some {| so_animated := true; so_offset := Fin o |} /\
    0 <= o /\ o <= wq * Qc_of_Z (Z.of_nat (length (images p)) - 1).
Proof.
  intros Hn (k & -> & Hk) Hw.
  set (n := Z.of_nat (length (images p))) in *.
  assert (0 <= k < n)%Z as Hk' by lia.
  exists (wq * Qc_of_Z ((k + 1) mod n)). split; [apply timeout_offset_mod, Hk'|].
  pose proof (Z.mod_pos_bound (k + 1) n ltac:(lia)) as Hmod.
  split.
  - apply Qcmult_nonneg_nonneg; [exact Hw|].
    rewrite <- Z2Qc_inj_0. apply (proj1 (Z2Qc_inj_le _ _)). lia.
  - apply Qcmult_le_mono_nonneg_l; [exact Hw|]. apply (proj1 (Z2Qc_inj_le _ _)). lia.
Qed.

Lemma timeout_offset_within_content_witness :
  exists o : Qc,
    timeout_callback (auto_advance_effect three_slides (of_Z 300) (of_Z 1)) true
    = Some {| so_animated := true; so_offset := Fin o |} /\
    0 <= o /\ o <= Qc_of_Z 300 * Qc_of_Z (Z.of_nat (length (images three_slides)) - 1).
Proof.
  apply (timeout_offset_within_content three_slides (Qc_of_Z 300) (of_Z 1)).
  - simpl. lia.
  - exists 1%Z. split; [reflexivity | simpl; lia].
  - discriminate.
Defined.

(** With no slide nothing is rendered (no source, no key, no indicator),
    but the timeout armed at the mount still makes a scroll call, to the
    offset of a second slide. *)
Theorem empty_list_still_scrolls (p : FlatListSliderProps) (ww : number) :
  images p = [] ->
  sources p = [] /\ item_keys p = [] /\
  indicators p (slider_width p ww) = [] /\
  commands (run (mount p ww) [timeout_fires])
  = [ {| so_animated := true; so_offset := mul (slider_width p ww) (of_Z 1) |} ].
Proof.
  intros Himg. unfold item_keys, indicators, sources. rewrite Himg.
  repeat split.
  - destruct (showIndicator p); reflexivity.
  - unfold run, mount, run_effect, step. simpl. unfold state_width. simpl.
    rewrite (timeout_callback_effect p (slider_width p ww) 0), Himg. reflexivity.
Qed.

Lemma empty_list_still_scrolls_witness :
  commands (run (mount no_slide (of_Z 400)) [timeout_fires])
  = [ {| so_animated := true; so_offset := mul (of_Z 300) (of_Z 1) |} ].
Proof.
  exact (proj2 (proj2 (proj2 (empty_list_still_scrolls no_slide (of_Z 400) eq_refl)))).
Defined.

Lemma strict_eq_NaN_r (x : number) : strict_eq x NaN = false.
Proof. destruct x; reflexivity. Qed.

Lemma mul_NaN_r (x : number) : mul x NaN = NaN.
Proof. destruct x; reflexivity. Qed.

Lemma timeout_callback_NaN (p : FlatListSliderProps) (w : number) :
  timeout_callback (auto_advance_effect p w NaN) true
  = Some {| so_animated := true; so_offset := NaN |}.
Proof.
  unfold timeout_callback, auto_advance_effect.
  cbn [captured_length captured_current captured_width negb styles slide is_width].
  rewrite strict_eq_NaN_r. change (add NaN (of_Z 1)) with NaN.
  rewrite mul_NaN_r. reflexivity.
Qed.

(** A notification of offset 0 in a viewport of width 0 leaves [current]
    at [NaN]; the effect runs for it, and the timeout then sends the list
    the offset [NaN], whatever the props. *)
Theorem nan_index_reaches_list (p : FlatListSliderProps) (ww : number) :
  let e := {| contentOffset_x := of_Z 0; layoutMeasurement_width := of_Z 0 |} in
  current (run (mount p ww) [scroll e]) = NaN /\
  commands (run (mount p ww) [scroll e; timeout_fires])
  = [ {| so_animated := true; so_offset := NaN |} ].
Proof.
  cbv zeta. unfold run. simpl foldl.
  set (e := {| contentOffset_x := of_Z 0; layoutMeasurement_width := of_Z 0 |}).
  assert (step (mount p ww) (scroll e) = run_effect (set_current (mount p ww) NaN)) as ->.
  { change NaN with (scroll_index e). apply step_scroll_rearms.
    - reflexivity.
    - apply run_effect_fresh.
    - reflexivity. }
  split; [reflexivity|].
  change (step (run_effect (set_current (mount p ww) NaN)) timeout_fires)
    with (emit (clear_timer (run_effect (set_current (mount p ww) NaN)))
               (timeout_callback (auto_advance_effect p (slider_width p ww) NaN) true)).
  rewrite timeout_callback_NaN. reflexivity.
Qed.

(** ** The life of the timeout *)

(** A pending timeout is never stale: whatever events led to the present
    state, its delay is the present [duration] and its callback closed
    over the present index, slide count and slide width. *)
Theorem pending_timeout_never_stale (p : FlatListSliderProps) (ww : number)
        (evs : list Event) (t : Timeout) :
  let s := run (mount p ww) evs in
  timer s = Some t ->
  delay t = duration (props s) /\
  captured_current t = current s /\
  captured_length t = length (images (props s)) /\
  captured_width t = state_width s.
Proof.
  intros s Ht. destruct (run_fresh p ww evs) as [_ Hfresh].
  rewrite (Hfresh t Ht). repeat split. apply sources_length.
Qed.

Lemma pending_timeout_never_stale_witness :
  delay (auto_advance_effect two_slides (of_Z 300) (of_Z 1)) = duration two_slides /\
  captured_current (auto_advance_effect two_slides (of_Z 300) (of_Z 1)) = of_Z 1 /\
  captured_length (auto_advance_effect two_slides (of_Z 300) (of_Z 1)) = 2%nat /\
  captured_width (auto_advance_effect two_slides (of_Z 300) (of_Z 1)) = of_Z 300.
Proof.
  apply (pending_timeout_never_stale three_slides (of_Z 400)
           [scroll {| contentOffset_x := of_Z 300; layoutMeasurement_width := of_Z 300 |};
            render two_slides (of_Z 500)]
           (auto_advance_effect two_slides (of_Z 300) (of_Z 1))).
  reflexivity.
Defined.

Lemma deps_same_refl (d : Deps) : deps_same d d = true.
Proof.
  unfold deps_same. rewrite !same_value_refl, Bool.eqb_reflx, Nat.eqb_refl. reflexivity.
Qed.

Lemma deps_same_false (a b : Deps) : a <> b -> deps_same a b = false.
Proof.
  intros Hne. destruct (deps_same a b) eqn:E; [|reflexivity].
  destruct Hne. apply deps_same_eq, E.
Qed.

(** A re-render restarts the countdown exactly when a dependency of the
    effect changed.  New props that keep [animated], [duration], the
    number of images and the slide width leave the timeout as it is,
    pending or elapsed; a change of any of them, [animated] included,
    clears it and arms one for the new props. *)
Theorem rerender_restarts_on_dependency_change (p : FlatListSliderProps) (ww : number)
        (evs : list Event) (p' : FlatListSliderProps) (ww' : number) :
  let s := run (mount p ww) evs in
  sliderRef s = true ->
  (animated p' = animated (props s) -> duration p' = duration (props s) ->
   length (images p') = length (images (props s)) ->
   slider_width p' ww' = state_width s ->
   timer (step s (render p' ww')) = timer s) /\
  (animated p' <> animated (props s) \/ duration p' <> duration (props s) \/
   length (images p') <> length (images (props s)) \/
   slider_width p' ww' <> state_width s ->
   timer (step s (render p' ww'))
   = Some (auto_advance_effect p' (slider_width p' ww') (current s))).
Proof.
  intros s Href. destruct (run_fresh p ww evs) as [Hdeps _]. fold s in Hdeps.
  assert (step s (render p' ww') = commit (set_props s p' ww')) as ->
    by (unfold step; rewrite Href; reflexivity).
  unfold commit.
  change (deps_same (last_deps (set_props s p' ww')) _)
    with (deps_same (last_deps s) (deps_of p' (slider_width p' ww') (current s))).
  rewrite Hdeps. split.
  - intros Ha Hd Hl Hw.
    replace (deps_of p' (slider_width p' ww') (current s))
      with (deps_of (props s) (state_width s) (current s)).
    + rewrite deps_same_refl. reflexivity.
    + unfold deps_of. simpl. rewrite !sources_length, Ha, Hd, Hl, Hw. reflexivity.
  - intros Hchange. rewrite deps_same_false; [reflexivity|].
    unfold deps_of. simpl. rewrite !sources_length. intros [= Ha Hd Hl Hw].
    destruct Hchange as [H|[H|[H|H]]]; apply H; congruence.
Qed.

Lemma rerender_restarts_on_dependency_change_witness :
  timer (step (run (mount two_slides (of_Z 400)) [timeout_fires])
              (render two_slides (of_Z 500))) = None /\
  timer (step (run (mount two_slides (of_Z 400)) [timeout_fires])
              (render two_slides_instant (of_Z 400)))
  = Some (auto_advance_effect two_slides_instant (of_Z 300) (of_Z 0)).
Proof.
  split.
  - apply (proj1 (rerender_restarts_on_dependency_change
                    two_slides (of_Z 400) [timeout_fires] two_slides (of_Z 500) eq_refl));
      reflexivity.
  - apply (proj2 (rerender_restarts_on_dependency_change
                    two_slides (of_Z 400) [timeout_fires] two_slides_instant (of_Z 400)
                    eq_refl)).
    left. discriminate.
Defined.

Lemma step_unmounted_no_timer (s : State) (ev : Event) :
  (sliderRef s = false -> timer s = None) ->
  sliderRef (step s ev) = false -> timer (step s ev) = None.
Proof.
  intros Hs. destruct (sliderRef s) eqn:Href.
  - destruct ev as [e| |i|p ww|]; try (rewrite step_sliderRef by discriminate; congruence).
    intros _. unfold step. rewrite Href. reflexivity.
  - unfold step. rewrite Href. simpl. intros _. apply Hs. reflexivity.
Qed.

Lemma run_unmounted_no_timer (s : State) (evs : list Event) :
  (sliderRef s = false -> timer s = None) ->
  sliderRef (run s evs) = false -> timer (run s evs) = None.
Proof.
  unfold run. revert s. induction evs as [|ev evs IH]; intros s Hs; simpl.
  - exact Hs.
  - apply IH, step_unmounted_no_timer, Hs.
Qed.

Lemma step_after_unmount (s : State) (evs : list Event) :
  sliderRef s = false -> run s evs = s.
Proof.
  intros Href. unfold run. induction evs as [|ev evs IH]; simpl; [reflexivity|].
  unfold step at 2. rewrite Href. exact IH.
Qed.

(** Unmounting is final: the pending timeout is cleared, and whatever
    events are delivered afterwards, no timeout is armed and no scroll
    call is made. *)
Theorem unmount_is_final (p : FlatListSliderProps) (ww : number) (before after : list Event) :
  let s := run (mount p ww) (before ++ unmount :: after) in
  sliderRef s = false /\ timer s = None /\
  commands s = commands (run (mount p ww) before).
Proof.
  cbv zeta. unfold run. rewrite foldl_app. simpl.
  fold (run (mount p ww) before). set (s := run (mount p ww) before).
  fold (run (step s unmount) after).
  assert (sliderRef s = false -> timer s = None) as Hinv
    by (apply run_unmounted_no_timer; discriminate).
  assert (sliderRef (step s unmount) = false) as Hoff.
  { unfold step. destruct (sliderRef s) eqn:Href; simpl; [reflexivity | exact Href]. }
  rewrite (step_after_unmount _ after Hoff). split; [exact Hoff|]. split.
  - unfold step. destruct (sliderRef s) eqn:Href; simpl; [reflexivity|].
    apply Hinv. reflexivity.
  - unfold step. destruct (sliderRef s); reflexivity.
Qed.

(** What each kind of event can touch: a scroll notification, a re-render
    and the unmount make no scroll call; an elapsing timeout and an
    indicator press make at most one and leave [current] alone, as do a
    re-render and the unmount.  Only [onScroll] writes the index. *)
Theorem event_footprint (s : State) (ev : Event) :
  match ev with
  | scroll _ => commands (step s ev) = commands s
  | timeout_fires | press_indicator _ =>
      current (step s ev) = current s /\
      props (step s ev) = props s /\
      exists c, commands (step s ev) = commands s ++ option_list c
  | render _ _ | unmount =>
      current (step s ev) = current s /\ commands (step s ev) = commands s
  end.
Proof.
  destruct ev as [e| |i|p ww|]; unfold step; destruct (negb (sliderRef s)) eqn:Href;
    try (repeat split; try (exists None; symmetry; apply app_nil_r); reflexivity).
  - destruct (onScroll _ _); [rewrite commit_commands|]; reflexivity.
  - destruct (timer s) as [t|].
    + repeat split. eexists. reflexivity.
    + repeat split. exists None. symmetry. apply app_nil_r.
  - destruct (_ !! _) as [h|].
    + repeat split. eexists. reflexivity.
    + repeat split. exists None. symmetry. apply app_nil_r.
  - rewrite commit_current, commit_commands. split; reflexivity.
Qed.

(** ** What is rendered *)

(** There is one indicator per image when [showIndicator] is on.  All have
    the box of the chosen shape; with [current] the integer [k] the one at
    position [k], and no other, has the active colour, and with [current]
    not a finite number none has. *)
Theorem indicator_highlight (p : FlatListSliderProps) (w cur : number) :
  length (indicator_views p w cur) = (if showIndicator p then length (images p) else 0%nat) /\
  (forall (i : nat) (st : ViewStyle),
      indicator_views p w cur !! i = Some st ->
      vs_width st = vs_width (indicator_box p w (indicatorShape p)) /\
      vs_height st = vs_height (indicator_box p w (indicatorShape p)) /\
      borderRadius st = borderRadius (indicator_box p w (indicatorShape p))) /\
  (forall (i : nat) (st : ViewStyle) (k : Z),
      indicator_views p w cur !! i = Some st -> cur = of_Z k ->
      backgroundColor st
      = Some (if bool_decide (Z.of_nat i = k) then indicatorActiveColor p
              else indicatorColor p)) /\
  (forall (i : nat) (st : ViewStyle),
      indicator_views p w cur !! i = Some st ->
      cur = NaN \/ cur = PosInfinity \/ cur = NegInfinity ->
      backgroundColor st = Some (indicatorColor p)).
Proof.
  assert (forall i st, indicator_views p w cur !! i = Some st ->
                       st = flatten (indicator_style p w cur i)) as Hview.
  { intros i st. unfold indicator_views. destruct (showIndicator p); [|discriminate].
    rewrite list_lookup_imap. destruct (images p !! i); simpl; congruence. }
  split; [|split; [|split]].
  - unfold indicator_views. destruct (showIndicator p); [apply length_imap | reflexivity].
  - intros i st Hst. rewrite (Hview i st Hst).
    destruct (active_indicator_same_box p w cur i) as (H1 & H2 & H3 & _).
    repeat split; assumption.
  - intros i st k Hst ->. rewrite (Hview i st Hst).
    destruct (active_indicator_same_box p w (of_Z k) i) as (_ & _ & _ & H).
    rewrite H. unfold of_nat. rewrite strict_eq_of_Z. reflexivity.
  - intros i st Hst Hcur. rewrite (Hview i st Hst).
    destruct (active_indicator_same_box p w cur i) as (_ & _ & _ & H).
    rewrite H. destruct Hcur as [-> | [-> | ->]]; reflexivity.
Qed.

Lemma indicator_highlight_witness :
  backgroundColor (flatten (indicator_style three_slides (of_Z 300) (of_Z 1) 1))
  = Some "#fff" /\
  backgroundColor (flatten (indicator_style three_slides (of_Z 300) (of_Z 1) 2))
  = Some "#111" /\
  backgroundColor (flatten (indicator_style three_slides (of_Z 300) NaN 1))
  = Some "#111".
Proof.
  split; [|split].
  - exact (proj1 (proj2 (proj2 (indicator_highlight three_slides (of_Z 300) (of_Z 1))))
             1%nat _ 1%Z eq_refl eq_refl).
  - exact (proj1 (proj2 (proj2 (indicator_highlight three_slides (of_Z 300) (of_Z 1))))
             2%nat _ 1%Z eq_refl eq_refl).
  - exact (proj2 (proj2 (proj2 (indicator_highlight three_slides (of_Z 300) NaN)))
             1%nat _ eq_refl (or_introl eq_refl)).
Defined.

(** The keys of the rendered items are the decimal numerals of their
    positions, one per image and no two alike. *)
Theorem item_keys_unique (p : FlatListSliderProps) :
  length (item_keys p) = length (images p) /\
  NoDup (item_keys p) /\
  (forall (i : nat) (key : string), item_keys p !! i = Some key -> key = pretty i) /\
  keyExtractor (image_number (of_Z 7)) 10 = "10".
Proof.
  assert (forall i key, item_keys p !! i = Some key -> key = pretty i) as Hkey.
  { intros i key. unfold item_keys. rewrite list_lookup_imap.
    destruct (sources p !! i); simpl; [|discriminate]. unfold keyExtractor. congruence. }
  split; [|split; [|split]].
  - unfold item_keys. rewrite length_imap. apply sources_length.
  - apply NoDup_alt. intros i j key Hi Hj.
    apply Hkey in Hi, Hj. subst key. exact (pretty_nat_inj _ _ Hj).
  - exact Hkey.
  - reflexivity.
Qed.

Lemma item_keys_unique_witness :
  item_keys three_slides = ["0"; "1"; "2"] /\ "2" = pretty 2%nat.
Proof.
  split; [reflexivity|].
  exact (proj1 (proj2 (proj2 (item_keys_unique three_slides))) 2%nat "2" eq_refl).
Defined.

(** No bare string is left among the memoised sources, so each is a value
    an [Image] accepts; normalising them again changes nothing, and a list
    without strings is kept as it is. *)
Theorem sources_hold_no_string (p : FlatListSliderProps) :
  Forall (fun src => forall s : string, src <> image_string s) (sources p) /\
  to_source <$> sources p = sources p /\
  (Forall (fun image => forall s : string, image <> image_string s) (images p) ->
   sources p = images p).
Proof.
  unfold sources. split; [|split].
  - apply Forall_fmap, Forall_true. intros [s|n|o] s'; discriminate.
  - rewrite <- list_fmap_compose. apply list_fmap_ext.
    intros i [s|n|o] _; reflexivity.
  - intros Hno. rewrite <- (list_fmap_id (images p)) at 2.
    apply Forall_fmap_ext_1. eapply Forall_impl; [exact Hno|].
    intros [s|n|o] Hs; try reflexivity. destruct (Hs s). reflexivity.
Qed.

Lemma sources_hold_no_string_witness :
  sources geometry_props = images geometry_props.
Proof.
  apply (proj2 (proj2 (sources_hold_no_string geometry_props))). constructor.
Defined.

(** The height follows the aspect ratio in order: for a finite slide
    width [wq >= 0] and a finite [aspectRatio] [r > 0] the height is not
    negative, it is at most the width when [r >= 1] (landscape) and at
    least the width when [r <= 1] (portrait). *)
Theorem slide_height_ordered_by_aspect_ratio (p : FlatListSliderProps) (wq r : Qc) :
  aspectRatio p = Fin r -> 0 < r -> 0 <= wq ->
  let height := is_height (slide (styles p (Fin wq))) in
  number_le (of_Z 0) height /\
  (1 <= r -> number_le height (Fin wq)) /\
  (r <= 1 -> number_le (Fin wq) height).
Proof.
  intros Hr Hpos Hw height. subst height. cbn [styles slide is_height].
  rewrite Hr, div_Fin by (apply Qc_pos_nonzero, Hpos).
  unfold of_Z. cbn [number_le]. rewrite Z2Qc_inj_0.
  assert (wq / r * r = wq) as Hmul.
  { unfold Qcdiv. rewrite <- Qcmult_assoc, Qcmult_inv_l, Qcmult_1_r
      by (apply Qc_pos_nonzero, Hpos). reflexivity. }
  split; [|split].
  - apply Qcmult_nonneg_nonneg; [exact Hw|]. apply Qclt_le_weak, Qcinv_pos, Hpos.
  - intros Hr1. apply (Qcmult_le_mono_pos_r _ _ r Hpos). rewrite Hmul.
    rewrite <- (Qcmult_1_r wq) at 1. apply Qcmult_le_mono_nonneg_l; assumption.
  - intros Hr1. apply (Qcmult_le_mono_pos_r _ _ r Hpos). rewrite Hmul.
    rewrite <- (Qcmult_1_r wq) at 2. apply Qcmult_le_mono_nonneg_l; assumption.
Qed.

Lemma slide_height_ordered_by_aspect_ratio_witness :
  number_le (is_height (slide (styles defaultProps (of_Z 480)))) (of_Z 480).
Proof.
  assert (0 < Q2Qc (178 # 100)) as Hpos by reflexivity.
  assert (0 <= Qc_of_Z 480) as Hw by discriminate.
  assert (1 <= Q2Qc (178 # 100)) as Hr by discriminate.
  exact (proj1 (proj2 (slide_height_ordered_by_aspect_ratio
                         defaultProps (Qc_of_Z 480) (Q2Qc (178 # 100)) eq_refl Hpos Hw))
           Hr).
Defined.

(** The geometry is not guarded.  An [aspectRatio] of 0 makes the height
    of a slide of positive width [Infinity] (and [NaN] for width 0); a
    [preAppliedSpacing] larger than the window makes the width negative. *)
Theorem slide_geometry_unguarded (p : FlatListSliderProps) (a b : Qc) :
  (aspectRatio p = of_Z 0 ->
   (0 < a -> is_height (slide (styles p (Fin a))) = PosInfinity) /\
   is_height (slide (styles p (of_Z 0))) = NaN) /\
  (width p = window -> preAppliedSpacing p = Fin b -> a < b ->
   exists wq : Qc, slider_width p (Fin a) = Fin wq /\ wq < 0).
Proof.
  split.
  - intros Hr. cbn [styles slide is_height]. rewrite Hr. split; [|reflexivity].
    intros Ha. rewrite div_Fin_zero.
    assert ((a ?= 0) = Gt) as -> by (apply Qcgt_alt; exact Ha). reflexivity.
  - intros Hwin Hb Hlt. unfold slider_width. rewrite Hwin, Hb.
    exists (a - b). split; [reflexivity|].
    apply (proj2 (Qcplus_lt_mono_r _ _ b)).
    replace (a - b + b) with a by ring. rewrite Qcplus_0_l. exact Hlt.
Qed.

Lemma slide_geometry_unguarded_witness :
  exists wq : Qc, slider_width geometry_props (of_Z 10) = Fin wq /\ wq < 0.
Proof.
  apply (proj2 (slide_geometry_unguarded geometry_props (Qc_of_Z 10) (Qc_of_Z 20)));
    reflexivity.
Defined.
